(** * The APOD request-resolution and translation core of [application.py]

    A shallow embedding of the date validation, the cache-key codec, the
    three query shapes ([_get_json_for_date], [_get_json_for_random_dates],
    [_get_json_for_date_range]) and the translation fallback chain
    ([_translate_to_zh]), with the two process-wide dictionaries
    [RESULTS_DICT] and [TRANSLATE_CACHE] as explicit state. *)

From Stdlib Require Import ZArith Lia Bool List Ascii String DecimalString.
From Stdlib Require DecimalPos DecimalZ.
From stdpp Require Import base option list gmap strings sorting.

Local Open Scope string_scope.
Local Open Scope Z_scope.

(** ** The proleptic Gregorian calendar of Python's [datetime.date] *)

Module Calendar.

(** A [datetime.date] value: three integers. *)
Record date := mkdate { year : Z; month : Z; day : Z }.

Definition MINYEAR : Z := 1.
Definition MAXYEAR : Z := 9999.

(** [_is_leap] *)
Definition is_leap (y : Z) : bool :=
  (y mod 4 =? 0) && (negb (y mod 100 =? 0) || (y mod 400 =? 0)).

(** [_days_before_year]: days before January 1st of year [y]. *)
Definition days_before_year (y : Z) : Z :=
  let y := y - 1 in y * 365 + y / 4 - y / 100 + y / 400.

(** The table [_DAYS_IN_MONTH]. *)
Definition DAYS_IN_MONTH (m : Z) : Z :=
  if m =? 2 then 28
  else if (m =? 4) || (m =? 6) || (m =? 9) || (m =? 11) then 30
  else 31.

(** The table [_DAYS_BEFORE_MONTH]. *)
Definition DAYS_BEFORE_MONTH (m : Z) : Z :=
  if m =? 1 then 0 else if m =? 2 then 31 else if m =? 3 then 59
  else if m =? 4 then 90 else if m =? 5 then 120 else if m =? 6 then 151
  else if m =? 7 then 181 else if m =? 8 then 212 else if m =? 9 then 243
  else if m =? 10 then 273 else if m =? 11 then 304 else 334.

Definition days_in_month (y m : Z) : Z :=
  if (m =? 2) && is_leap y then 29 else DAYS_IN_MONTH m.

Definition days_before_month (y m : Z) : Z :=
  DAYS_BEFORE_MONTH m + (if (2 <? m) && is_leap y then 1 else 0).

(** The values a [date] object can hold. *)
Definition valid_date (d : date) : bool :=
  (MINYEAR <=? year d) && (year d <=? MAXYEAR) &&
  (1 <=? month d) && (month d <=? 12) &&
  (1 <=? day d) && (day d <=? days_in_month (year d) (month d)).

(** [_ymd2ord] and [date.toordinal]: January 1st of year 1 is day 1. *)
Definition ymd2ord (y m d : Z) : Z :=
  days_before_year y + days_before_month y m + d.

Definition toordinal (d : date) : Z := ymd2ord (year d) (month d) (day d).

Definition DI400Y : Z := 146097.
Definition DI100Y : Z := 36524.
Definition DI4Y : Z := 1461.
Definition MAXORDINAL : Z := 3652059.

(** [_ord2ymd]: the cascade of [divmod]s over the 400-, 100-, 4- and
    1-year cycles, then the month estimate [(n + 50) >> 5]. *)
Definition ord2ymd (n : Z) : date :=
  let n := n - 1 in
  let n400 := n / DI400Y in
  let n := n mod DI400Y in
  let y := n400 * 400 + 1 in
  let n100 := n / DI100Y in
  let n := n mod DI100Y in
  let n4 := n / DI4Y in
  let n := n mod DI4Y in
  let n1 := n / 365 in
  let n := n mod 365 in
  let y := y + n100 * 100 + n4 * 4 + n1 in
  if (n1 =? 4) || (n100 =? 4) then mkdate (y - 1) 12 31
  else
    let leapyear := (n1 =? 3) && (negb (n4 =? 24) || (n100 =? 3)) in
    let m := Z.shiftr (n + 50) 5 in
    let preceding :=
      DAYS_BEFORE_MONTH m + (if (2 <? m) && leapyear then 1 else 0) in
    if n <? preceding then
      let m := m - 1 in
      let preceding :=
        preceding
        - (DAYS_IN_MONTH m + (if (m =? 2) && leapyear then 1 else 0)) in
      mkdate y m (n - preceding + 1)
    else mkdate y m (n - preceding + 1).

(** [date.fromordinal]: a [ValueError] outside [1 .. MAXORDINAL]. *)
Definition fromordinal (n : Z) : option date :=
  if (1 <=? n) && (n <=? MAXORDINAL) then Some (ord2ymd n) else None.

(** Comparison of [date] objects: lexicographic on year, month, day. *)
Definition date_ltb (a b : date) : bool :=
  (year a <? year b)
  || ((year a =? year b)
      && ((month a <? month b)
          || ((month a =? month b) && (day a <? day b)))).

Definition date_lt (a b : date) : Prop := date_ltb a b = true.
Definition date_le (a b : date) : Prop := date_ltb b a = false.

(** A month and a day that exist, in any year. *)
Definition date_ok (d : date) : Prop :=
  1 <= month d <= 12 /\ 1 <= day d <= days_in_month (year d) (month d).

(** The same day [k] years later. *)
Definition shift_years (k : Z) (d : date) : date :=
  mkdate (year d + k) (month d) (day d).

(** The check run over one 400-year cycle: [ord2ymd] lands on a date of
    the years 1..400 whose ordinal is the one given. *)
Definition cycle_ok (r : Z) : bool :=
  let d := ord2ymd (r + 1) in
  (1 <=? year d) && (year d <=? 400) && (1 <=? month d) && (month d <=? 12)
  && (1 <=? day d) && (day d <=? days_in_month (year d) (month d))
  && (toordinal d =? r + 1).

Fixpoint cycle_ok_upto (k : nat) (r : Z) : bool :=
  match k with
  | O => true
  | S k' => cycle_ok r && cycle_ok_upto k' (r + 1)
  end.

End Calendar.

(** ** Python values: strings of digits, flags, JSON *)

Module Py.
Import Calendar.

(** [str(n)] for an [int]. *)
Definition str_int (n : Z) : string :=
  NilZero.string_of_int (Z.to_int n).

(** [s.zfill(w)] for a string of digits: pad with zeros on the left. *)
Definition zfill (w : nat) (s : string) : string :=
  String.concat "" (repeat "0" (w - String.length s)) +:+ s.

(** [date.isoformat()], that is ["%04d-%02d-%02d"]. *)
Definition isoformat (d : date) : string :=
  zfill 4 (str_int (year d)) +:+ "-" +:+ zfill 2 (str_int (month d))
  +:+ "-" +:+ zfill 2 (str_int (day d)).

(** The month names of [%b] in the C locale. *)
Definition month_abbr (m : Z) : string :=
  if m =? 1 then "Jan" else if m =? 2 then "Feb" else if m =? 3 then "Mar"
  else if m =? 4 then "Apr" else if m =? 5 then "May"
  else if m =? 6 then "Jun" else if m =? 7 then "Jul"
  else if m =? 8 then "Aug" else if m =? 9 then "Sep"
  else if m =? 10 then "Oct" else if m =? 11 then "Nov" else "Dec".

(** [d.strftime("%b %d, %Y")] *)
Definition strftime_bdY (d : date) : string :=
  month_abbr (month d) +:+ " " +:+ zfill 2 (str_int (day d)) +:+ ", "
  +:+ zfill 4 (str_int (year d)).

(** [d.strftime("%Y-%m-%d")] *)
Definition strftime_Ymd (d : date) : string := isoformat d.

(** An ASCII digit, as the classes [[0-9]] of a pattern take it. *)
Definition digit_of (c : ascii) : option Z :=
  let n := Z.of_N (N_of_ascii c) in
  if (48 <=? n) && (n <=? 57) then Some (n - 48) else None.

(** A Python [str] is held as the bytes of its UTF-8 form. *)
Definition byte_value (c : ascii) : Z := Z.of_N (N_of_ascii c).

(** The six payload bits of a continuation byte [10xxxxxx]. *)
Definition continuation (c : ascii) : option Z :=
  let n := byte_value c in
  if (128 <=? n) && (n <=? 191) then Some (n - 128) else None.

(** The first code point of a byte sequence and the bytes after it;
    [None] where the bytes do not begin with a code point in UTF-8. *)
Definition decode_utf8 (l : list ascii) : option (Z * list ascii) :=
  match l with
  | [] => None
  | a :: l1 =>
      let n := byte_value a in
      if n <? 128 then Some (n, l1)
      else if n <? 194 then None
      else if n <? 224 then
        match l1 with
        | b :: l2 =>
            match continuation b with
            | Some x => Some (64 * (n - 192) + x, l2)
            | None => None
            end
        | _ => None
        end
      else if n <? 240 then
        match l1 with
        | b :: c :: l3 =>
            match continuation b, continuation c with
            | Some x, Some y =>
                let cp := 4096 * (n - 224) + 64 * x + y in
                if (2048 <=? cp) && negb ((55296 <=? cp) && (cp <=? 57343))
                then Some (cp, l3) else None
            | _, _ => None
            end
        | _ => None
        end
      else if n <? 245 then
        match l1 with
        | b :: c :: d :: l4 =>
            match continuation b, continuation c, continuation d with
            | Some x, Some y, Some z =>
                let cp := 262144 * (n - 240) + 4096 * x + 64 * y + z in
                if (65536 <=? cp) && (cp <=? 1114111)
                then Some (cp, l4) else None
            | _, _, _ => None
            end
        | _ => None
        end
      else None
  end.

(** The characters of a [str]: each byte that is not a continuation byte
    opens one, and takes the continuation bytes after it. *)
Fixpoint characters_of (l : list ascii) : list string :=
  match l with
  | [] => []
  | a :: rest =>
      let after := characters_of rest in
      match rest, after with
      | b :: _, following :: others =>
          match continuation b with
          | Some _ => String a following :: others
          | None => String a "" :: after
          end
      | _, _ => String a "" :: after
      end
  end.

Definition characters (s : string) : list string :=
  characters_of (list_ascii_of_string s).

(** The code points of the digit zero in the scripts that have decimal
    digits (general category [Nd], Unicode 14.0, the database of
    CPython 3.11); the digits one to nine follow each of them. *)
Definition decimal_zeros : list Z :=
  [48; 1632; 1776; 1984; 2406; 2534; 2662; 2790; 2918; 3046; 3174; 3302;
   3430; 3558; 3664; 3792; 3872; 4160; 4240; 6112; 6160; 6470; 6608; 6784;
   6800; 6992; 7088; 7232; 7248; 42528; 43216; 43264; 43472; 43504; 43600;
   44016; 65296; 66720; 68912; 69734; 69872; 69942; 70096; 70384; 70736;
   70864; 71248; 71360; 71472; 71904; 72016; 72784; 73040; 73120; 92768;
   92864; 93008; 120782; 120792; 120802; 120812; 120822; 123200; 123632;
   125264; 130032].

(** [unicodedata.decimal]: the value of a code point that is a decimal
    digit. *)
Definition decimal_value (cp : Z) : option Z :=
  match List.find (fun zero => (zero <=? cp) && (cp <? zero + 10))
                  decimal_zeros with
  | Some zero => Some (cp - zero)
  | None => None
  end.

(** One character matching [\d] in a [str] pattern, with the value [int]
    gives it: a decimal digit of any script. *)
Definition unicode_digit (l : list ascii) : option (Z * list ascii) :=
  match decode_utf8 l with
  | Some (cp, rest) =>
      match decimal_value cp with
      | Some v => Some (v, rest)
      | None => None
      end
  | None => None
  end.

(** The [%Y] group of [_strptime]: [\d\d\d\d], read by [int]. *)
Definition parse_year (l : list ascii) : option (Z * list ascii) :=
  match unicode_digit l with
  | Some (a, l1) =>
      match unicode_digit l1 with
      | Some (b, l2) =>
          match unicode_digit l2 with
          | Some (c, l3) =>
              match unicode_digit l3 with
              | Some (d, l4) =>
                  Some (1000 * a + 100 * b + 10 * c + d, l4)
              | None => None
              end
          | None => None
          end
      | None => None
      end
  | None => None
  end.

(** The [%m] group of [_strptime]: [1[0-2]|0[1-9]|[1-9]]. *)
Definition parse_month (l : list ascii) : option (Z * list ascii) :=
  match l with
  | a :: rest =>
      match digit_of a with
      | Some x =>
          let two :=
            match rest with
            | b :: rest' =>
                match digit_of b with
                | Some y =>
                    if ((x =? 1) && (y <=? 2)) || ((x =? 0) && (1 <=? y))
                    then Some (10 * x + y, rest') else None
                | None => None
                end
            | [] => None
            end in
          match two with
          | Some r => Some r
          | None => if 1 <=? x then Some (x, rest) else None
          end
      | None => None
      end
  | [] => None
  end.

(** The [%d] group: [3[0-1]|[1-2]\d|0[1-9]|[1-9]| [1-9]]. The classes
    written with brackets take ASCII digits, [\d] any decimal digit. *)
Definition parse_day (l : list ascii) : option (Z * list ascii) :=
  match l with
  | a :: rest =>
      match digit_of a with
      | Some x =>
          let two :=
            if (1 <=? x) && (x <=? 2) then
              match unicode_digit rest with
              | Some (y, rest') => Some (10 * x + y, rest')
              | None => None
              end
            else
              match rest with
              | b :: rest' =>
                  match digit_of b with
                  | Some y =>
                      if ((x =? 3) && (y <=? 1)) || ((x =? 0) && (1 <=? y))
                      then Some (10 * x + y, rest') else None
                  | None => None
                  end
              | [] => None
              end in
          match two with
          | Some r => Some r
          | None => if 1 <=? x then Some (x, rest) else None
          end
      | None =>
          if Ascii.eqb a " " then
            match rest with
            | b :: rest' =>
                match digit_of b with
                | Some y => if 1 <=? y then Some (y, rest') else None
                | None => None
                end
            | [] => None
            end
          else None
      end
  | [] => None
  end.

(** [datetime.strptime(s, "%Y-%m-%d").date()]: a year, a month and a day
    as [_strptime]'s regular expression takes them, nothing left over,
    and a date that exists. [None] stands for the [ValueError]. *)
Definition strptime_Ymd (s : string) : option date :=
  match parse_year (list_ascii_of_string s) with
  | Some (y, sep1 :: l2) =>
      if Ascii.eqb sep1 "-" then
        match parse_month l2 with
        | Some (m, sep2 :: l3) =>
            if Ascii.eqb sep2 "-" then
              match parse_day l3 with
              | Some (dd, []) =>
                  let r := mkdate y m dd in
                  if valid_date r then Some r else None
              | _ => None
              end
            else None
        | _ => None
        end
      else None
  | _ => None
  end.

(** A JSON document as [json.loads] builds it; an object keeps its pairs
    in the order of the text. Integers stand for the numbers: only
    being zero or not is ever observed of them. *)
Inductive json :=
| JNull
| JBool (b : bool)
| JNum (n : Z)
| JStr (s : string)
| JArr (items : list json)
| JObj (pairs : list (string * json)).

Definition is_nil {A} (l : list A) : bool :=
  match l with [] => true | _ => false end.

(** Truth value of a Python object, as [if x:] and [not x] see it. *)
Definition truthy (j : json) : bool :=
  match j with
  | JNull => false
  | JBool b => b
  | JNum n => negb (n =? 0)
  | JStr s => negb (String.eqb s "")
  | JArr l => negb (is_nil l)
  | JObj l => negb (is_nil l)
  end.

(** A request flag as the endpoint passes it on: the default [False], or
    the raw query-string value. *)
Inductive flag := FBool (b : bool) | FStr (s : string).

Definition str_flag (f : flag) : string :=
  match f with
  | FBool true => "True"
  | FBool false => "False"
  | FStr s => s
  end.

Definition truthy_flag (f : flag) : bool :=
  match f with
  | FBool b => b
  | FStr s => negb (String.eqb s "")
  end.

End Py.

(** ** The process state, the outside world and the exceptions *)

Module Service.
Import Calendar Py.

(** What [_get_json_for_date] passes on as [dt]: the falsy [input_date]
    itself ([None] or the empty string) or the parsed date. *)
Inductive dt_arg := DtNone | DtEmpty | DtDate (d : date).

(** What an observer of the process sees, in order: a call of
    [parse_apod], an assignment [RESULTS_DICT[key] = data], a request to
    a translation provider. *)
Inductive event :=
| Fetch (dt : dt_arg) (use_default_today_date : bool) (thumbs : flag)
| Store (key : string)
| Primary (text : string)
| Secondary (text : string).

(** The two module-level dictionaries, and the observations so far. *)
Record state := mkstate {
  RESULTS_DICT : gmap string (gmap string json);
  TRANSLATE_CACHE : gmap string json;
  trace : list event }.

Definition initial : state := mkstate ∅ ∅ [].

(** The exceptions, named after the failure they signal; [class_of]
    gives the Python class. *)
Inductive exn :=
| MalformedDate (raw : string)         (* strptime on a request date *)
| OutOfRangeDate (msg : string)        (* _validate_date *)
| InvalidCount (msg : string)
| InvalidRange (msg : string)
| UnparsableRecordDate (raw : string)  (* strptime on data["date"] *)
| OrdinalOutOfRange (n : Z)            (* date.fromordinal *)
| NotValidJson                         (* response.json() *)
| RequestException                     (* transport fault, HTTP error status *)
| KeyError (key : json)
| IndexError
| TypeError
| AttributeError.

Inductive pyclass :=
| ValueErrorC | RequestExceptionC | KeyErrorC | IndexErrorC | TypeErrorC
| AttributeErrorC.

Definition class_of (e : exn) : pyclass :=
  match e with
  | MalformedDate _ | OutOfRangeDate _ | InvalidCount _ | InvalidRange _
  | UnparsableRecordDate _ | OrdinalOutOfRange _ | NotValidJson =>
      ValueErrorC
  | RequestException => RequestExceptionC
  | KeyError _ => KeyErrorC
  | IndexError => IndexErrorC
  | TypeError => TypeErrorC
  | AttributeError => AttributeErrorC
  end.

Inductive result (A : Type) := Ok (a : A) | Raise (e : exn).
Arguments Ok {A} a.
Arguments Raise {A} e.

(** A computation on the process state that returns or raises; what it
    did to the state before raising stays done. *)
Definition M (A : Type) : Type := state -> result A * state.

Definition ret {A} (a : A) : M A := fun s => (Ok a, s).
Definition raise {A} (e : exn) : M A := fun s => (Raise e, s).
Definition bind {A B} (m : M A) (k : A -> M B) : M B :=
  fun s => match m s with
           | (Ok a, s') => k a s'
           | (Raise e, s') => (Raise e, s')
           end.
Definition lift {A} (r : result A) : M A := fun s => (r, s).

(** [try: m  except <classes accepted by h>: pass], giving [None] when
    the exception was caught. *)
Definition try_except {A} (m : M A) (h : pyclass -> bool) : M (option A) :=
  fun s => match m s with
           | (Ok a, s') => (Ok (Some a), s')
           | (Raise e, s') =>
               if h (class_of e) then (Ok None, s') else (Raise e, s')
           end.

Definition observe (e : event) : M unit :=
  fun s => (Ok tt, mkstate (RESULTS_DICT s) (TRANSLATE_CACHE s)
                           (trace s ++ [e])).
Definition read_results : M (gmap string (gmap string json)) :=
  fun s => (Ok (RESULTS_DICT s), s).
Definition write_results (key : string) (data : gmap string json)
  : M unit :=
  fun s => (Ok tt, mkstate (<[key := data]> (RESULTS_DICT s))
                           (TRANSLATE_CACHE s) (trace s)).
Definition read_translations : M (gmap string json) :=
  fun s => (Ok (TRANSLATE_CACHE s), s).
Definition write_translation (text : string) (translated : json) : M unit :=
  fun s => (Ok tt, mkstate (RESULTS_DICT s)
                           (<[text := translated]> (TRANSLATE_CACHE s))
                           (trace s)).

Declare Scope m_scope.
Delimit Scope m_scope with M.
Notation "'let!' x := c1 'in' c2" := (bind c1 (fun x => c2))
  (at level 10, x pattern, c1 at level 100, c2 at level 200) : m_scope.
Notation "c1 >> c2" := (bind c1 (fun _ => c2))
  (at level 100, c2 at level 200, right associativity) : m_scope.
Local Open Scope m_scope.

(** What one call of [parse_apod] comes to: an exception, or the value
    returned, [None] or a dictionary. *)
Inductive fetched :=
| Raises
| Returns (page_props : option (gmap string json)).

(** What one HTTP exchange with a translation provider comes to. *)
Inductive http_result :=
| RequestFails      (* no answer, time-out, or raise_for_status() raises *)
| BodyNotJson       (* response.json() raises *)
| Body (j : json).  (* response.json() *)

(** The world around the module: the clocks, the helpers of
    [apod.utility], the key file read at start-up, [random.shuffle], the
    translation endpoints and the [TRANSLATE_ENABLED] setting. *)
Record env := mkenv {
  today : date;
  utc_today : date;
  parse_apod : dt_arg -> bool -> flag -> fetched;
  ALCHEMY_API_KEY : option string;
  get_concepts : json -> string -> option json;
  shuffle : list Z -> list Z;
  post_libretranslate : string -> http_result;
  get_google : string -> http_result;
  TRANSLATE_ENABLED : bool }.

Definition SERVICE_VERSION : string := "v1".
Definition APOD_METHOD_NAME : string := "apod".
Definition ALLOWED_APOD_FIELDS : list string :=
  ["concept_tags"; "date"; "hd"; "count"; "start_date"; "end_date";
   "thumbs"].

(** A Flask response: [jsonify] of a record, of a list of records, or the
    error body of [_abort]. *)
Inductive response :=
| Json (data : gmap string json)
| JsonList (all_data : list (gmap string json))
| Abort (service_version : string) (msg : string) (code : Z).

Definition _usage (joinstr prestr : string) : string :=
  "Allowed request fields for " +:+ APOD_METHOD_NAME +:+ " method are "
  +:+ prestr +:+ String.concat joinstr ALLOWED_APOD_FIELDS.

Definition _abort (code : Z) (msg : string) (usage : bool) : response :=
  let msg := if usage then msg +:+ " " +:+ _usage "', '" "'" +:+ "'"
             else msg in
  Abort SERVICE_VERSION msg code.

(** What [data] can be bound to inside the resolvers. *)
Inductive handled :=
| HNone
| HDict (page_props : gmap string json)
| HResponse (resp : response).

(** [not data] *)
Definition falsy (data : handled) : bool :=
  match data with
  | HNone => true
  | HDict d => bool_decide (d = ∅)
  | HResponse _ => false
  end.

(** The date a record carries, read as [_get_json_for_date] reads it. *)
Definition record_date (data : gmap string json) : option date :=
  match data !! "date" with
  | Some (JStr s) => strptime_Ymd s
  | _ => None
  end.

(** [data["service_version"] = SERVICE_VERSION] *)
Definition versioned (data : gmap string json) : gmap string json :=
  <["service_version" := JStr SERVICE_VERSION]> data.

(** A record with its [service_version] set. *)
Definition has_version (r : gmap string json) : Prop :=
  r !! "service_version" = Some (JStr "v1").

(** The records a response carries. *)
Definition records_of (resp : response) : list (gmap string json) :=
  match resp with
  | Json data => [data]
  | JsonList all_data => all_data
  | Abort _ _ _ => []
  end.

(** The keys assigned in [RESULTS_DICT], the calls of [parse_apod] and
    the provider requests among some observations. *)
Definition stores (evs : list event) : list string :=
  omap (fun e => match e with Store k => Some k | _ => None end) evs.
Definition fetches (evs : list event) : list (dt_arg * bool * flag) :=
  omap (fun e => match e with
                 | Fetch dt b t => Some (dt, b, t)
                 | _ => None
                 end) evs.
Definition contacts (evs : list event) : list event :=
  List.filter (fun e => match e with
                        | Primary _ | Secondary _ => true
                        | _ => false
                        end) evs.

(** The state after some more observations, the dictionaries untouched. *)
Definition add_events (s : state) (evs : list event) : state :=
  mkstate (RESULTS_DICT s) (TRANSLATE_CACHE s) (trace s ++ evs).

Section Resolver.
Context (E : env).

(** The first APOD image date, [datetime(1995, 6, 16).date()]. *)
Definition begin : date := mkdate 1995 6 16.

(** The message of the [ValueError] of [_validate_date]. *)
Definition out_of_range_message : string :=
  "Date must be between " +:+ strftime_bdY begin +:+ " and "
  +:+ strftime_bdY (today E) +:+ ".".

(** [_validate_date] *)
Definition _validate_date (dt : date) : M unit :=
  if date_ltb (today E) dt || date_ltb dt begin then
    let today_str := strftime_bdY (today E) in
    let begin_str := strftime_bdY begin in
    raise (OutOfRangeDate ("Date must be between " +:+ begin_str
                           +:+ " and " +:+ today_str +:+ "."))
  else ret tt.

(** The cache key, spelled out three times in [_get_json_for_date]:
    [str(year) + "y" + str(month) + "m" + str(day) + "d"
     + str(use_concept_tags) + str(thumbs)]. *)
Definition make_key (d : date) (use_concept_tags thumbs : flag) : string :=
  str_int (year d) +:+ "y" +:+ str_int (month d) +:+ "m"
  +:+ str_int (day d) +:+ "d" +:+ str_flag use_concept_tags
  +:+ str_flag thumbs.

(** [datetime.strptime(s, "%Y-%m-%d").date()] on a request date. *)
Definition parse_request_date (s : string) : M date :=
  match strptime_Ymd s with
  | Some d => ret d
  | None => raise (MalformedDate s)
  end.

(** [datetime.strptime(data["date"], "%Y-%m-%d").date()] *)
Definition parse_record_date (data : gmap string json) : M date :=
  match data !! "date" with
  | None => raise (KeyError (JStr "date"))
  | Some (JStr s) =>
      match strptime_Ymd s with
      | Some d => ret d
      | None => raise (UnparsableRecordDate s)
      end
  | Some _ => raise TypeError
  end.

(** [date.fromordinal] *)
Definition date_fromordinal (n : Z) : M date :=
  match fromordinal n with
  | Some d => ret d
  | None => raise (OrdinalOutOfRange n)
  end.

(** The body of [_apod_handler]: whatever goes wrong inside becomes the
    response of [_abort(500, ...)], so the function never raises. *)
Definition handle (dt : dt_arg) (use_concept_tags : flag)
    (use_default_today_date : bool) (thumbs : flag) : handled :=
  let internal_error :=
    HResponse (_abort 500 "Internal Service Error" false) in
  match parse_apod E dt use_default_today_date thumbs with
  | Raises => internal_error
  | Returns None => HNone
  | Returns (Some page_props) =>
      if bool_decide (page_props = ∅) then HNone
      else if truthy_flag use_concept_tags then
        match ALCHEMY_API_KEY E with
        | None =>
            HDict (<["concepts" :=
              JStr "concept_tags functionality turned off in current service"]>
              page_props)
        | Some key =>
            match page_props !! "explanation" with
            | None => internal_error
            | Some explanation =>
                match get_concepts E explanation key with
                | Some concepts =>
                    HDict (<["concepts" := concepts]> page_props)
                | None => internal_error
                end
            end
        end
      else HDict page_props
  end.

(** [_apod_handler]: one call of [parse_apod], observed. *)
Definition _apod_handler (dt : dt_arg) (use_concept_tags : flag)
    (use_default_today_date : bool) (thumbs : flag) : M handled :=
  observe (Fetch dt use_default_today_date thumbs) >>
  ret (handle dt use_concept_tags use_default_today_date thumbs).

(** [str(input_date)] inside the f-string of the 404 message. *)
Definition str_input (input_date : option string) : string :=
  match input_date with None => "None" | Some s => s end.

(** The first part of [_get_json_for_date], "get the date param": whether
    today's date is the default, the [dt] handed to [_apod_handler] and
    the key looked up. A missing or empty [input_date] is falsy. *)
Definition resolve_input_date (input_date : option string)
    (use_concept_tags thumbs : flag) : M (bool * dt_arg * string) :=
  match input_date with
  | Some (String c rest) =>
      let input := String c rest in
      let! dt := parse_request_date input in
      _validate_date dt >>
      ret (false, DtDate dt, make_key dt use_concept_tags thumbs)
  | falsy_input =>
      ret (true,
           match falsy_input with None => DtNone | _ => DtEmpty end,
           make_key (utc_today E) use_concept_tags thumbs)
  end.

(** The rest of [_get_json_for_date], from "get data" on. On a cache hit
    [data] is the very dictionary held by [RESULTS_DICT[key]], so
    setting its [service_version] changes that entry in place. *)
Definition serve_date (input_date : option string)
    (resolved : bool * dt_arg * string) (use_concept_tags thumbs : flag)
  : M response :=
  let '(use_default_today_date, dt, key) := resolved in
  let! cache := read_results in
  let! data :=
    match cache !! key with
    | Some cached => ret (HDict cached)
    | None =>
        _apod_handler dt use_concept_tags use_default_today_date thumbs
    end in
  let not_found :=
    _abort 404 ("No data available for date: " +:+ str_input input_date)
           false in
  if falsy data then ret not_found
  else
    match data with
    | HDict d =>
        let data := <["service_version" := JStr SERVICE_VERSION]> d in
        (match cache !! key with
         | Some _ => write_results key data
         | None => ret tt
         end) >>
        let! datadate := parse_record_date data in
        let key := make_key datadate use_concept_tags thumbs in
        observe (Store key) >>
        write_results key data >>
        ret (Json data)
    | HResponse resp => ret resp
    | HNone => ret not_found
    end.

(** [_get_json_for_date] *)
Definition _get_json_for_date (input_date : option string)
    (use_concept_tags thumbs : flag) : M response :=
  let! resolved :=
    resolve_input_date input_date use_concept_tags thumbs in
  serve_date input_date resolved use_concept_tags thumbs.

(** The upstream contract of the data model: a record has a [date]. *)
Definition dated : Prop :=
  forall dt b t page_props,
    parse_apod E dt b t = Returns (Some page_props) ->
    is_Some (page_props !! "date").

(** The record the batch loops get for the day of ordinal [o]. *)
Definition fetched_for (use_concept_tags thumbs : flag)
    (today_ordinal : Z) (r : gmap string json) (o : Z) : Prop :=
  exists d,
    handle (DtDate (ord2ymd o)) use_concept_tags (o =? today_ordinal)
           thumbs = HDict d
    /\ r = versioned d.

(** What one round of the range loop appends for ordinal [o]: the
    record fetched for that day, if its own date is that day's. *)
Definition range_keeps (use_concept_tags thumbs : flag)
    (today_ordinal : Z) (o : Z) : option (gmap string json) :=
  match handle (DtDate (ord2ymd o)) use_concept_tags
               (o =? today_ordinal) thumbs with
  | HDict d =>
      match d !! "date" with
      | Some (JStr s) =>
          if String.eqb s (isoformat (ord2ymd o))
          then Some (versioned d) else None
      | _ => None
      end
  | _ => None
  end.

Section Batch.
Context (use_concept_tags thumbs : flag) (today_ordinal : Z).

(** The [for date_ordinal in random_date_ordinals] loop of
    [_get_json_for_random_dates], [all_data] being the list built so
    far. *)
Fixpoint random_loop (count : Z) (random_date_ordinals : list Z)
    (all_data : list (gmap string json))
  : M (list (gmap string json)) :=
  match random_date_ordinals with
  | [] => ret all_data
  | date_ordinal :: rest =>
      let! dt := date_fromordinal date_ordinal in
      let! data :=
        _apod_handler (DtDate dt) use_concept_tags
                      (date_ordinal =? today_ordinal) thumbs in
      if falsy data then random_loop count rest all_data
      else
        match data with
        | HDict d =>
            let data :=
              <["service_version" := JStr SERVICE_VERSION]> d in
            let all_data := (all_data ++ [data])%list in
            if count <=? Z.of_nat (length all_data) then ret all_data
            else random_loop count rest all_data
        | _ => random_loop count rest all_data
        end
  end.

(** The [while start_ordinal <= end_ordinal] loop of
    [_get_json_for_date_range], run over the ordinals
    [start_ordinal, start_ordinal + 1, ..., end_ordinal] it visits. *)
Fixpoint range_loop (ordinals : list Z)
    (all_data : list (gmap string json))
  : M (list (gmap string json)) :=
  match ordinals with
  | [] => ret all_data
  | start_ordinal :: rest =>
      let! dt := date_fromordinal start_ordinal in
      let! data :=
        _apod_handler (DtDate dt) use_concept_tags
                      (start_ordinal =? today_ordinal) thumbs in
      if falsy data then range_loop rest all_data
      else
        match data with
        | HDict d =>
            let data :=
              <["service_version" := JStr SERVICE_VERSION]> d in
            match data !! "date" with
            | None => raise (KeyError (JStr "date"))
            | Some (JStr s) =>
                if String.eqb s (isoformat dt)
                then range_loop rest (all_data ++ [data])%list
                else range_loop rest all_data
            | Some _ => range_loop rest all_data
            end
        | _ => range_loop rest all_data
        end
  end.

End Batch.

(** [_get_json_for_random_dates] *)
Definition _get_json_for_random_dates (count : Z)
    (use_concept_tags thumbs : flag) : M response :=
  if (100 <? count) || (count <=? 0) then
    raise (InvalidCount "Count must be positive and cannot exceed 100")
  else
    let begin_ordinal := toordinal begin in
    let today_ordinal := toordinal (today E) in
    let random_date_ordinals :=
      shuffle E (seqZ begin_ordinal (today_ordinal + 1 - begin_ordinal)) in
    let! all_data :=
      random_loop use_concept_tags thumbs today_ordinal count
                  random_date_ordinals [] in
    ret (JsonList all_data).

(** [_get_json_for_date_range]; [start_date] is a string, the endpoint
    calls the function only with one. *)
Definition _get_json_for_date_range (start_date : string)
    (end_date : option string) (use_concept_tags thumbs : flag)
  : M response :=
  let! start_dt := parse_request_date start_date in
  _validate_date start_dt >>
  let end_date :=
    match end_date with
    | Some (String c rest) => String c rest
    | _ => strftime_Ymd (today E)
    end in
  let! end_dt := parse_request_date end_date in
  _validate_date end_dt >>
  let start_ordinal := toordinal start_dt in
  let end_ordinal := toordinal end_dt in
  let today_ordinal := toordinal (today E) in
  if end_ordinal <? start_ordinal then
    raise (InvalidRange "start_date cannot be after end_date")
  else
    let! all_data :=
      range_loop use_concept_tags thumbs today_ordinal
                 (seqZ start_ordinal (end_ordinal + 1 - start_ordinal))
                 [] in
    ret (JsonList all_data).

End Resolver.

(** *** The translation gateway *)

(** [d.get(key)] on the dictionary [json.loads] builds from an object:
    of two pairs with one key the later one wins. *)
Fixpoint dict_lookup (pairs : list (string * json)) (key : string)
  : option json :=
  match pairs with
  | [] => None
  | (k, v) :: rest =>
      match dict_lookup rest key with
      | Some later => Some later
      | None => if String.eqb k key then Some v else None
      end
  end.

(** The keys of that dictionary, each at the place of its first pair. *)
Definition dict_keys (pairs : list (string * json)) : list string :=
  fold_left (fun seen kv =>
               if existsb (String.eqb (fst kv)) seen then seen
               else (seen ++ [fst kv])%list)
            pairs [].

(** [for part in x]: the items of a list, the characters of a string, the
    keys of a dictionary; anything else is not iterable. *)
Definition iterate (x : json) : result (list json) :=
  match x with
  | JArr items => Ok items
  | JStr s => Ok (map JStr (characters s))
  | JObj pairs => Ok (map JStr (dict_keys pairs))
  | _ => Raise TypeError
  end.

(** [part[0]] *)
Definition subscript0 (part : json) : result json :=
  match part with
  | JArr (x :: _) => Ok x
  | JArr [] => Raise IndexError
  | JStr s =>
      match characters s with
      | c :: _ => Ok (JStr c)
      | [] => Raise IndexError
      end
  | JObj _ => Raise (KeyError (JNum 0))
  | _ => Raise TypeError
  end.

(** The generator [part[0] for part in parts if part and part[0]]. *)
Fixpoint first_fragments (parts : list json) : result (list json) :=
  match parts with
  | [] => Ok []
  | part :: rest =>
      if truthy part then
        match subscript0 part with
        | Raise e => Raise e
        | Ok fragment =>
            match first_fragments rest with
            | Raise e => Raise e
            | Ok fragments =>
                Ok (if truthy fragment then fragment :: fragments
                    else fragments)
            end
        end
      else first_fragments rest
  end.

(** ["".join(items)]: every item has to be a string. *)
Fixpoint join_empty (items : list json) : result string :=
  match items with
  | [] => Ok ""
  | JStr s :: rest =>
      match join_empty rest with
      | Ok t => Ok (s +:+ t)
      | Raise e => Raise e
      end
  | _ :: _ => Raise TypeError
  end.

Section Translation.
Context (E : env).

(** What [requests.post(...)], [raise_for_status()] and
    [response.json()] leave of one exchange. *)
Definition response_json (r : http_result) : M json :=
  match r with
  | RequestFails => raise RequestException
  | BodyNotJson => raise NotValidJson
  | Body j => ret j
  end.

(** [response.json().get("translatedText")]; Python's [None] is
    [JNull]. *)
Definition translated_text (body : json) : result json :=
  match body with
  | JObj pairs => Ok (default JNull (dict_lookup pairs "translatedText"))
  | _ => Raise AttributeError
  end.

(** What [_translate_with_google] makes of [response.json()]. *)
Definition joined_fragments (data : json) : result json :=
  match data with
  | JArr (first :: _) =>
      match iterate first with
      | Raise e => Raise e
      | Ok parts =>
          match first_fragments parts with
          | Raise e => Raise e
          | Ok fragments =>
              match join_empty fragments with
              | Raise e => Raise e
              | Ok joined => Ok (JStr joined)
              end
          end
      end
  | _ => Ok JNull
  end.

(** [_translate_with_libretranslate] *)
Definition _translate_with_libretranslate (text : string) : M json :=
  observe (Primary text) >>
  let! body := response_json (post_libretranslate E text) in
  lift (translated_text body).

(** [_translate_with_google] *)
Definition _translate_with_google (text : string) : M json :=
  observe (Secondary text) >>
  let! data := response_json (get_google E text) in
  lift (joined_fragments data).

(** The three ways a provider fails that [_translate_to_zh] provides
    for: no usable HTTP answer (a [RequestException]), an answer that
    is not JSON (the [ValueError] of [response.json()]), an empty
    result. *)
Definition primary_fails (text : string) : Prop :=
  post_libretranslate E text = RequestFails
  \/ post_libretranslate E text = BodyNotJson
  \/ exists body empty,
       post_libretranslate E text = Body body
       /\ translated_text body = Ok empty /\ truthy empty = false.

Definition secondary_fails (text : string) : Prop :=
  get_google E text = RequestFails
  \/ get_google E text = BodyNotJson
  \/ exists data empty,
       get_google E text = Body data
       /\ joined_fragments data = Ok empty /\ truthy empty = false.

Definition caught (c : pyclass) : bool :=
  match c with
  | RequestExceptionC | ValueErrorC => true
  | _ => false
  end.

(** [_translate_to_zh] *)
Definition _translate_to_zh (text : string) : M json :=
  if negb (truthy (JStr text)) || negb (TRANSLATE_ENABLED E) then
    ret (JStr text)
  else
    let! cache := read_translations in
    match cache !! text with
    | Some cached => ret cached
    | None =>
        let! attempt :=
          try_except
            (let! translated := _translate_with_libretranslate text in
             let! translated :=
               if negb (truthy translated)
               then _translate_with_google text
               else ret translated in
             if truthy translated then
               write_translation text translated >>
               ret (Some translated)
             else ret None)
            caught in
        match attempt with
        | Some (Some translated) => ret translated
        | _ => ret (JStr text)
        end
    end.

End Translation.

End Service.

(** ** The [/v1/apod/] endpoint and its argument checks *)

Module Endpoint.
Import Calendar Py Service.

(** [request.args]: the query string as (field, value) pairs, in order.
    [args.get(field)] is the first value of the field. *)
Fixpoint args_get (args : list (string * string)) (field : string)
  : option string :=
  match args with
  | [] => None
  | (k, v) :: rest => if String.eqb k field then Some v else args_get rest field
  end.

(** [_validate]: every field of the request is an allowed one. *)
Fixpoint _validate (data : list (string * string)) : bool :=
  match data with
  | [] => true
  | (key, _) :: rest =>
      if existsb (String.eqb key) ALLOWED_APOD_FIELDS then _validate rest
      else false
  end.

(** [c.lower()] for an ASCII letter, and [s.lower()]. *)
Definition lower_ascii (c : ascii) : ascii :=
  let n := N_of_ascii c in
  if ((65 <=? n) && (n <=? 90))%N then ascii_of_N (n + 32) else c.

Fixpoint lower (s : string) : string :=
  match s with
  | EmptyString => EmptyString
  | String c rest => String (lower_ascii c) (lower rest)
  end.

(** [_validate_bools]: a boolean, or a string that reads "true" or "false"
    in any casing. *)
Fixpoint _validate_bools (bool_args : list flag) : bool :=
  match bool_args with
  | [] => true
  | FBool _ :: rest => _validate_bools rest
  | FStr s :: rest =>
      if existsb (String.eqb (lower s)) ["true"; "false"]
      then _validate_bools rest else false
  end.

(** [not x] for a value of [args.get]: missing or empty. *)
Definition absent (x : option string) : bool :=
  match x with
  | Some (String _ _) => false
  | _ => true
  end.

(** [args.get(field, False)] *)
Definition flag_arg (args : list (string * string)) (field : string) : flag :=
  match args_get args field with
  | Some v => FStr v
  | None => FBool false
  end.

Section Dispatch.
Context (E : env).
(** [int(count)]: the number, or the message of its [ValueError]. *)
Context (py_int : string -> Z + string).
(** [str(ve)] for the exceptions raised inside the standard library. *)
Context (library_message : exn -> string).

(** [str(ve)] *)
Definition str_exn (e : exn) : string :=
  match e with
  | OutOfRangeDate msg | InvalidCount msg | InvalidRange msg => msg
  | _ => library_message e
  end.

(** The two [except] clauses of [apod]: a [ValueError] becomes a 400 with
    its message; any other exception (none of the classes here has
    "BadRequest" in its name) a 500. *)
Definition on_exception (e : exn) : response :=
  match class_of e with
  | ValueErrorC => _abort 400 (str_exn e) false
  | _ => _abort 500 "Internal Service Error" false
  end.

(** The resolver [apod] hands the request to, once the fields and the
    flags are checked. *)
Definition dispatch (args : list (string * string)) : M response :=
  let input_date := args_get args "date" in
  let count := args_get args "count" in
  let start_date := args_get args "start_date" in
  let end_date := args_get args "end_date" in
  let use_concept_tags := flag_arg args "concept_tags" in
  let thumbs := flag_arg args "thumbs" in
  if negb (_validate_bools [use_concept_tags; thumbs]) then
    ret (_abort 400
           "Bad Request: concept_tags and thumbs must be boolean values." true)
  else if absent count && absent start_date && absent end_date then
    _get_json_for_date E input_date use_concept_tags thumbs
  else if absent input_date && absent start_date && absent end_date
          && negb (absent count) then
    match py_int (default "" count) with
    | inl n => _get_json_for_random_dates E n use_concept_tags thumbs
    | inr msg => raise (InvalidCount msg)
    end
  else if absent count && absent input_date && negb (absent start_date) then
    _get_json_for_date_range E (default "" start_date) end_date
                             use_concept_tags thumbs
  else ret (_abort 400 "Bad Request: invalid field combination passed." true).

(** [apod]: the view function. It always answers. *)
Definition apod (args : list (string * string)) (s : state)
  : response * state :=
  if negb (_validate args) then
    (_abort 400 "Bad Request: incorrect field passed." true, s)
  else
    match dispatch args s with
    | (Ok resp, s') => (resp, s')
    | (Raise e, s') => (on_exception e, s')
    end.

(** The HTTP status of a response. *)
Definition status (resp : response) : Z :=
  match resp with
  | Abort _ _ code => code
  | _ => 200
  end.

End Dispatch.

(** [int] on plain decimal digits, for the sample requests. *)
Definition int_of_digits (s : string) : Z + string :=
  match NilZero.int_of_string s with
  | Some d =>
      if forallb (fun c => match digit_of c with Some _ => true | None => false end)
                 (list_ascii_of_string s)
      then inl (Z.of_int d)
      else inr ("invalid literal for int() with base 10: '" +:+ s +:+ "'")
  | None => inr ("invalid literal for int() with base 10: '" +:+ s +:+ "'")
  end.

Definition no_message (e : exn) : string := "".

End Endpoint.

(** ** What every entry of [RESULTS_DICT] looks like *)

Module Invariants.
Import Calendar Py Service.

(** Every entry is a non-empty record with its version set, stored under
    the key of the date it carries. *)
Definition cache_wf (s : state) : Prop :=
  forall key r,
    RESULTS_DICT s !! key = Some r ->
    has_version r /\ r <> ∅
    /\ exists d c t, record_date r = Some d /\ key = make_key d c t.

(** A character that is not a decimal digit occurs nowhere in [s]. *)
Fixpoint digits_only (s : string) : Prop :=
  match s with
  | EmptyString => True
  | String c rest => is_Some (digit_of c) /\ digits_only rest
  end.

End Invariants.

(** ** Checks by enumeration *)

Module Enumeration.
Import Calendar Py.

(** [f] holds of [r], [r + 1], ..., [r + k - 1]. *)
Fixpoint all_upto (f : Z -> bool) (k : nat) (r : Z) : bool :=
  match k with
  | O => true
  | S k' => f r && all_upto f k' (r + 1)
  end.

(** The four characters of [y] printed as ["%04d"] are digits that read
    back as [y]. *)
Definition year_prints (y : Z) : bool :=
  match list_ascii_of_string (zfill 4 (str_int y)) with
  | [c1; c2; c3; c4] =>
      match digit_of c1, digit_of c2, digit_of c3, digit_of c4 with
      | Some a, Some b, Some c, Some d =>
          1000 * a + 100 * b + 10 * c + d =? y
      | _, _, _, _ => false
      end
  | _ => false
  end.

(** A month, or a day, printed as ["%02d"] is two digits that the first
    alternative of its group in [_strptime] takes, and that read back. *)
Definition month_prints (m : Z) : bool :=
  match list_ascii_of_string (zfill 2 (str_int m)) with
  | [a; b] =>
      match digit_of a, digit_of b with
      | Some x, Some y =>
          (((x =? 1) && (y <=? 2)) || ((x =? 0) && (1 <=? y)))
          && (10 * x + y =? m)
      | _, _ => false
      end
  | _ => false
  end.

Definition day_prints (d : Z) : bool :=
  match list_ascii_of_string (zfill 2 (str_int d)) with
  | [a; b] =>
      match digit_of a, digit_of b with
      | Some x, Some y =>
          (((x =? 3) && (y <=? 1)) || ((1 <=? x) && (x <=? 2))
           || ((x =? 0) && (1 <=? y)))
          && (10 * x + y =? d)
      | _, _ => false
      end
  | _ => false
  end.

End Enumeration.

(** ** Sample worlds *)

Module Samples.
Import Calendar Py Service.

(** A record as the upstream returns it for day [d]. *)
Definition apod_of (d : date) : gmap string json :=
  {[ "date" := JStr (isoformat d);
     "title" := JStr "A picture";
     "explanation" := JStr "What it shows" ]}.

(** An upstream that knows every day up to [latest], its own "today", and
    answers a lookup without a date, or a defaulted lookup for a day it
    does not have yet, with the record of [latest]. *)
Definition upstream (latest : date) (dt : dt_arg)
    (use_default_today_date : bool) (thumbs : flag) : fetched :=
  match dt with
  | DtDate d =>
      if date_ltb latest d then
        if use_default_today_date then Returns (Some (apod_of latest))
        else Raises
      else Returns (Some (apod_of d))
  | _ => Returns (Some (apod_of latest))
  end.

(** An upstream without data for any day. *)
Definition no_data (dt : dt_arg) (use_default_today_date : bool)
    (thumbs : flag) : fetched := Returns None.

Definition no_concepts (explanation : json) (key : string) : option json :=
  None.

Definition provider_down (text : string) : http_result := RequestFails.
Definition provider_empty (text : string) : http_result := Body (JObj []).

(** Providers that answer with JSON of another shape than the one the
    module reads: a list where the primary sends an object, numbers where
    the secondary sends segments. *)
Definition provider_list (text : string) : http_result := Body (JArr []).
Definition google_numbers (text : string) : http_result :=
  Body (JArr [JArr [JNum 5]]).

(** The secondary provider's answer for ["hello"]. *)
Definition google_hello (text : string) : http_result :=
  Body (JArr [JArr [JArr [JStr "你好"; JStr text; JNull]]; JNull;
              JStr "en"]).

Definition libre_hello (text : string) : http_result :=
  Body (JObj [("translatedText", JStr "你好")]).

Definition day (y m d : Z) : date := mkdate y m d.

(** The process on 2026-01-02 (both clocks), upstream up to date, no
    concept key, translation providers as given. *)
Definition world (fetch : dt_arg -> bool -> flag -> fetched)
    (order : list Z -> list Z) (primary secondary : string -> http_result)
  : env :=
  mkenv (day 2026 1 2) (day 2026 1 2) fetch None no_concepts order
        primary secondary true.

Definition plain : env :=
  world (upstream (day 2026 1 2)) (@rev Z) provider_down provider_down.

(** The same day with the upstream still on the day before. *)
Definition behind : env :=
  world (upstream (day 2026 1 1)) (@rev Z) provider_down provider_down.

Definition nothing_upstream : env :=
  world no_data (@rev Z) provider_down provider_down.

(** The record of a run that returned one, and the records of any run. *)
Definition the_record (run : result response * state) : gmap string json :=
  match fst run with
  | Ok (Json data) => data
  | _ => ∅
  end.

Definition records_of_run (run : result response * state)
  : list (gmap string json) :=
  match fst run with
  | Ok resp => records_of resp
  | Raise _ => []
  end.

Definition no_flag : flag := FBool false.

End Samples.

(* ==== theorems ==== *)

Module CalendarFacts.
Import Calendar.

Lemma cycle_checked : cycle_ok_upto 146097 0 = true.
Proof. vm_compute. reflexivity. Qed.

Lemma cycle_ok_upto_spec k : forall r i,
  cycle_ok_upto k r = true -> r <= i < r + Z.of_nat k -> cycle_ok i = true.
Proof.
  induction k as [|k IH]; intros r i H Hi; [lia|].
  cbn [cycle_ok_upto] in H. apply andb_true_iff in H as [H0 H1].
  destruct (Z.eq_dec i r) as [->|Hne]; [exact H0|].
  apply (IH (r + 1)); [exact H1|lia].
Qed.

Lemma cycle_ok_all r : 0 <= r < 146097 -> cycle_ok r = true.
Proof.
  intros Hr. apply (cycle_ok_upto_spec _ 0 r cycle_checked).
  change (Z.of_nat 146097) with 146097. lia.
Qed.

(** [ord2ymd] only looks at the position inside the 400-year cycle. *)
Lemma ord2ymd_cycle q r :
  0 <= r < 146097 ->
  ord2ymd (146097 * q + r + 1) = shift_years (400 * q) (ord2ymd (r + 1)).
Proof.
  intros Hr. unfold ord2ymd, DI400Y.
  replace (146097 * q + r + 1 - 1) with (r + q * 146097) by lia.
  replace (r + 1 - 1) with r by lia.
  rewrite Z.div_add, Z.mod_add by lia.
  rewrite (Z.div_small r 146097), (Z.mod_small r 146097) by lia.
  cbv zeta.
  repeat match goal with
         | |- context [if ?b then _ else _] => destruct b
         end; unfold shift_years; cbn [year month day]; f_equal; lia.
Qed.

Lemma is_leap_cycle y q : is_leap (y + 400 * q) = is_leap y.
Proof.
  unfold is_leap.
  replace ((y + 400 * q) mod 4) with (y mod 4)
    by (replace (y + 400 * q) with (y + (100 * q) * 4) by lia;
        now rewrite Z.mod_add).
  replace ((y + 400 * q) mod 100) with (y mod 100)
    by (replace (y + 400 * q) with (y + (4 * q) * 100) by lia;
        now rewrite Z.mod_add).
  replace ((y + 400 * q) mod 400) with (y mod 400)
    by (replace (y + 400 * q) with (y + q * 400) by lia;
        now rewrite Z.mod_add).
  reflexivity.
Qed.

Lemma days_before_year_cycle y q :
  days_before_year (y + 400 * q) = days_before_year y + 146097 * q.
Proof.
  unfold days_before_year. cbv zeta.
  replace (y + 400 * q - 1) with (y - 1 + 400 * q) by lia.
  replace ((y - 1 + 400 * q) / 4) with ((y - 1) / 4 + 100 * q)
    by (replace (y - 1 + 400 * q) with (y - 1 + (100 * q) * 4) by lia;
        now rewrite Z.div_add).
  replace ((y - 1 + 400 * q) / 100) with ((y - 1) / 100 + 4 * q)
    by (replace (y - 1 + 400 * q) with (y - 1 + (4 * q) * 100) by lia;
        now rewrite Z.div_add).
  replace ((y - 1 + 400 * q) / 400) with ((y - 1) / 400 + q)
    by (replace (y - 1 + 400 * q) with (y - 1 + q * 400) by lia;
        now rewrite Z.div_add).
  lia.
Qed.

Lemma toordinal_cycle d q :
  toordinal (shift_years (400 * q) d) = toordinal d + 146097 * q.
Proof.
  unfold toordinal, shift_years, ymd2ord, days_before_month.
  cbn [year month day].
  rewrite is_leap_cycle, days_before_year_cycle. lia.
Qed.

(** What [ord2ymd] returns for a positive ordinal: a date with a month and
    a day that exist, whose ordinal is the one given. *)
Lemma ord2ymd_spec n :
  1 <= n ->
  let d := ord2ymd n in
  1 <= year d /\ 1 <= month d <= 12
  /\ 1 <= day d <= days_in_month (year d) (month d)
  /\ toordinal d = n.
Proof.
  intros Hn.
  pose proof (Z.div_mod (n - 1) 146097 ltac:(lia)) as Hdm.
  pose proof (Z.mod_pos_bound (n - 1) 146097 ltac:(lia)) as Hr.
  pose proof (Z.div_pos (n - 1) 146097 ltac:(lia) ltac:(lia)) as Hq.
  set (q := (n - 1) / 146097) in *. set (r := (n - 1) mod 146097) in *.
  replace n with (146097 * q + r + 1) by lia.
  rewrite ord2ymd_cycle by lia.
  pose proof (cycle_ok_all r Hr) as Hc. unfold cycle_ok in Hc.
  cbv zeta in Hc. cbv zeta.
  repeat (apply andb_true_iff in Hc as [Hc ?]).
  rewrite toordinal_cycle.
  unfold shift_years. cbn [year month day].
  unfold days_in_month in *. rewrite is_leap_cycle.
  repeat split; lia.
Qed.

Ltac split_month m :=
  let H := fresh in
  assert (H : m = 1 \/ m = 2 \/ m = 3 \/ m = 4 \/ m = 5 \/ m = 6 \/ m = 7
              \/ m = 8 \/ m = 9 \/ m = 10 \/ m = 11 \/ m = 12) by lia;
  repeat (destruct H as [H|H]); subst m.

Lemma days_before_year_mono a b :
  a <= b -> days_before_year a <= days_before_year b.
Proof.
  intros Hab. unfold days_before_year. cbv zeta.
  Z.div_mod_to_equations. lia.
Qed.

Lemma days_before_year_succ y :
  days_before_year (y + 1)
  = days_before_year y + (if is_leap y then 366 else 365).
Proof.
  unfold days_before_year, is_leap. cbv zeta.
  replace (y + 1 - 1) with y by lia.
  destruct (y mod 4 =? 0) eqn:E4; destruct (y mod 100 =? 0) eqn:E100;
    destruct (y mod 400 =? 0) eqn:E400; cbn [andb orb negb];
    Z.div_mod_to_equations; lia.
Qed.

(** A day of year [y] lies before the first day of year [y + 1]. *)
Lemma day_within_year y m d :
  1 <= m <= 12 -> 1 <= d <= days_in_month y m ->
  1 <= days_before_month y m + d <= (if is_leap y then 366 else 365).
Proof.
  intros Hm Hd. unfold days_before_month, days_in_month in *.
  split_month m; destruct (is_leap y); cbn in *; lia.
Qed.

(** A day of month [m1] lies before the first day of a later month. *)
Lemma day_within_month y m1 m2 d :
  1 <= m1 -> m1 < m2 -> m2 <= 12 -> d <= days_in_month y m1 ->
  days_before_month y m1 + d <= days_before_month y m2.
Proof.
  intros H1 H12 H2 Hd. unfold days_before_month, days_in_month in *.
  split_month m1; split_month m2; try lia;
    destruct (is_leap y); cbn in *; lia.
Qed.

Lemma valid_date_ok d : valid_date d = true -> date_ok d.
Proof.
  unfold valid_date, date_ok. intros H.
  repeat (apply andb_true_iff in H as [H ?]). lia.
Qed.

(** [toordinal] respects the order of dates. *)
Lemma toordinal_lt a b :
  date_ok a -> date_ok b -> date_lt a b -> toordinal a < toordinal b.
Proof.
  intros [Hma Hda] [Hmb Hdb]. unfold date_lt, date_ltb, toordinal, ymd2ord.
  destruct a as [ya ma da], b as [yb mb db]. cbn [year month day] in *.
  intros H. apply orb_true_iff in H as [H|H].
  - pose proof (day_within_year ya ma da Hma Hda) as Ha.
    pose proof (day_within_year yb mb db Hmb Hdb) as Hb.
    pose proof (days_before_year_succ ya) as Hs.
    pose proof (days_before_year_mono (ya + 1) yb ltac:(lia)). lia.
  - apply andb_true_iff in H as [Hy H]. apply Z.eqb_eq in Hy. subst yb.
    apply orb_true_iff in H as [H|H].
    + pose proof (day_within_month ya ma mb da ltac:(lia) ltac:(lia)
                    ltac:(lia) ltac:(lia)). lia.
    + apply andb_true_iff in H as [Hm H]. apply Z.eqb_eq in Hm. subst mb.
      lia.
Qed.

Lemma date_trichotomy a b : date_lt a b \/ a = b \/ date_lt b a.
Proof.
  unfold date_lt, date_ltb. destruct a as [ya ma da], b as [yb mb db].
  cbn [year month day].
  destruct (Z.lt_total ya yb) as [?|[->|?]];
    [left; apply orb_true_iff; left; lia| |
     right; right; apply orb_true_iff; left; lia].
  rewrite !Z.ltb_irrefl, !Z.eqb_refl. cbn [orb andb].
  destruct (Z.lt_total ma mb) as [?|[->|?]];
    [left; apply orb_true_iff; left; lia| |
     right; right; apply orb_true_iff; left; lia].
  rewrite !Z.ltb_irrefl, !Z.eqb_refl. cbn [orb andb].
  destruct (Z.lt_total da db) as [?|[->|?]]; [left|right; left|right; right];
    try reflexivity; lia.
Qed.

Lemma date_lt_irrefl a : ~ date_lt a a.
Proof.
  unfold date_lt, date_ltb. rewrite !Z.ltb_irrefl, !Z.eqb_refl. discriminate.
Qed.

Lemma toordinal_inj a b :
  date_ok a -> date_ok b -> toordinal a = toordinal b -> a = b.
Proof.
  intros Ha Hb Heq.
  destruct (date_trichotomy a b) as [H|[H|H]]; [|exact H|].
  - pose proof (toordinal_lt a b Ha Hb H). lia.
  - pose proof (toordinal_lt b a Hb Ha H). lia.
Qed.

Lemma toordinal_lt_inv a b :
  date_ok a -> date_ok b -> toordinal a < toordinal b -> date_lt a b.
Proof.
  intros Ha Hb Hlt.
  destruct (date_trichotomy a b) as [H|[H|H]]; [exact H| |].
  - subst. lia.
  - pose proof (toordinal_lt b a Hb Ha H). lia.
Qed.

Lemma ord2ymd_ok n : 1 <= n -> date_ok (ord2ymd n).
Proof.
  intros Hn. pose proof (ord2ymd_spec n Hn) as H. cbv zeta in H.
  unfold date_ok. tauto.
Qed.

Lemma toordinal_ord2ymd n : 1 <= n -> toordinal (ord2ymd n) = n.
Proof.
  intros Hn. pose proof (ord2ymd_spec n Hn) as H. cbv zeta in H. tauto.
Qed.

Lemma ord2ymd_toordinal d :
  valid_date d = true -> ord2ymd (toordinal d) = d.
Proof.
  intros Hv. pose proof (valid_date_ok d Hv) as Hok.
  assert (1 <= toordinal d) as H1.
  { unfold valid_date, MINYEAR in Hv.
    repeat (apply andb_true_iff in Hv as [Hv ?]).
    destruct Hok as [Hm Hd].
    pose proof (day_within_year _ _ _ Hm Hd).
    pose proof (days_before_year_mono 1 (year d) ltac:(lia)).
    unfold toordinal, ymd2ord. change (days_before_year 1) with 0 in *. lia. }
  apply toordinal_inj; [now apply ord2ymd_ok|exact Hok|].
  now apply toordinal_ord2ymd.
Qed.

(** The ordinals of the dates a [date] object can hold. *)
Lemma toordinal_bounds d :
  valid_date d = true -> 1 <= toordinal d <= MAXORDINAL.
Proof.
  intros Hv. pose proof (valid_date_ok d Hv) as [Hm Hd].
  unfold valid_date, MINYEAR, MAXYEAR in Hv.
  repeat (apply andb_true_iff in Hv as [Hv ?]).
  pose proof (day_within_year _ _ _ Hm Hd).
  pose proof (days_before_year_mono 1 (year d) ltac:(lia)).
  pose proof (days_before_year_mono (year d + 1) 10000 ltac:(lia)).
  pose proof (days_before_year_succ (year d)).
  unfold toordinal, ymd2ord, MAXORDINAL.
  change (days_before_year 1) with 0 in *.
  change (days_before_year 10000) with 3652059 in *.
  destruct (is_leap (year d)); lia.
Qed.

(** Every ordinal in range is the ordinal of a date that exists. *)
Lemma ord2ymd_valid n :
  1 <= n <= MAXORDINAL -> valid_date (ord2ymd n) = true.
Proof.
  intros [H1 H2]. pose proof (ord2ymd_spec n H1) as (Hy & Hm & Hd & Ho).
  cbv zeta in *. unfold valid_date, MINYEAR, MAXYEAR.
  assert (year (ord2ymd n) <= 9999).
  { destruct (Z_le_gt_dec (year (ord2ymd n)) 9999) as [?|Hgt]; [assumption|].
    pose proof (days_before_year_mono 10000 (year (ord2ymd n)) ltac:(lia)).
    pose proof (day_within_year _ _ _ Hm Hd).
    change (days_before_year 10000) with 3652059 in *.
    unfold toordinal, ymd2ord, MAXORDINAL in *. lia. }
  repeat (apply andb_true_iff; split); lia.
Qed.

Lemma fromordinal_Some n :
  1 <= n <= MAXORDINAL -> fromordinal n = Some (ord2ymd n).
Proof.
  intros H. unfold fromordinal.
  replace ((1 <=? n) && (n <=? MAXORDINAL)) with true; [reflexivity|].
  symmetry. apply andb_true_iff. lia.
Qed.

(** Later ordinals are later dates. *)
Lemma ord2ymd_lt n1 n2 :
  1 <= n1 -> n1 < n2 -> date_lt (ord2ymd n1) (ord2ymd n2).
Proof.
  intros H1 H12. apply toordinal_lt_inv.
  - now apply ord2ymd_ok.
  - apply ord2ymd_ok. lia.
  - rewrite !toordinal_ord2ymd by lia. exact H12.
Qed.

End CalendarFacts.

(** ** Date validation *)

Module ValidationFacts.
Import Calendar Py Service CalendarFacts.

Lemma epoch_formatted : strftime_bdY begin = "Jun 16, 1995".
Proof. reflexivity. Qed.

Lemma epoch_ordinal : toordinal begin = 728460.
Proof. reflexivity. Qed.

Lemma validate_in_range E d s :
  date_le begin d -> date_le d (today E) ->
  _validate_date E d s = (Ok tt, s).
Proof.
  unfold date_le, _validate_date. intros -> ->. reflexivity.
Qed.

Lemma validate_out_of_range E d s :
  date_lt d begin \/ date_lt (today E) d ->
  _validate_date E d s = (Raise (OutOfRangeDate (out_of_range_message E)), s).
Proof.
  unfold date_lt, _validate_date, out_of_range_message.
  intros [H|H]; rewrite H; [rewrite orb_true_r|]; reflexivity.
Qed.

(** C3. [_validate_date] accepts exactly the dates from the first APOD
    day, 1995-06-16, up to today: for such a date it returns and leaves
    the state alone; for an earlier or a later one it raises the
    out-of-range [ValueError], whose message is "Date must be between ",
    the formatted epoch ("Jun 16, 1995"), " and ", today formatted the
    same way, and a full stop. *)
Theorem validate_date_range (E : env) (d : date) (s : state) :
  (date_le begin d /\ date_le d (today E) ->
     _validate_date E d s = (Ok tt, s))
  /\ (date_lt d begin \/ date_lt (today E) d ->
        _validate_date E d s
        = (Raise (OutOfRangeDate
             ("Date must be between " +:+ "Jun 16, 1995" +:+ " and "
              +:+ strftime_bdY (today E) +:+ ".")), s)
        /\ class_of (OutOfRangeDate
             ("Date must be between " +:+ "Jun 16, 1995" +:+ " and "
              +:+ strftime_bdY (today E) +:+ ".")) = ValueErrorC).
Proof.
  split.
  - intros [H1 H2]. now apply validate_in_range.
  - intros H. split; [|reflexivity].
    now rewrite (validate_out_of_range E d s H).
Qed.

End ValidationFacts.

(** ** Single-date resolution *)

Module SingleFacts.
Import Calendar Py Service CalendarFacts.

Ltac run :=
  unfold bind, ret, raise, lift, observe, read_results, write_results,
    read_translations, write_translation, try_except in *;
  cbn [fst snd RESULTS_DICT TRANSLATE_CACHE trace] in *.

Lemma stores_app l1 l2 : stores (l1 ++ l2) = (stores l1 ++ stores l2)%list.
Proof. unfold stores. apply omap_app. Qed.

Lemma fetches_app l1 l2 :
  fetches (l1 ++ l2) = (fetches l1 ++ fetches l2)%list.
Proof. unfold fetches. apply omap_app. Qed.

Lemma versioned_version d :
  versioned d !! "service_version" = Some (JStr "v1").
Proof. unfold versioned. now rewrite lookup_insert_eq. Qed.

Lemma versioned_nonempty d : versioned d <> ∅.
Proof. unfold versioned. apply insert_non_empty. Qed.

Lemma versioned_id d :
  d !! "service_version" = Some (JStr "v1") -> versioned d = d.
Proof. intros H. unfold versioned. now apply insert_id. Qed.

Lemma record_date_versioned d : record_date (versioned d) = record_date d.
Proof.
  unfold record_date, versioned. now rewrite lookup_insert_ne.
Qed.

Lemma handle_dict_nonempty E dt c b t d :
  handle E dt c b t = HDict d -> d <> ∅.
Proof.
  unfold handle. intros H.
  repeat case_match; simplify_eq; try apply insert_non_empty.
  match goal with
  | Hb : bool_decide (_ = ∅) = false |- _ =>
      now apply bool_decide_eq_false in Hb
  end.
Qed.

Lemma handle_response E dt c b t resp :
  handle E dt c b t = HResponse resp -> records_of resp = [].
Proof.
  unfold handle. intros H. repeat case_match; simplify_eq; reflexivity.
Qed.

Lemma falsy_dict d : falsy (HDict d) = false <-> d <> ∅.
Proof. cbn. apply bool_decide_eq_false. Qed.

Lemma parse_record_date_spec data s :
  parse_record_date data s
  = match data !! "date" with
    | None => (Raise (KeyError (JStr "date")), s)
    | Some (JStr raw) =>
        match strptime_Ymd raw with
        | Some d => (Ok d, s)
        | None => (Raise (UnparsableRecordDate raw), s)
        end
    | Some _ => (Raise TypeError, s)
    end.
Proof.
  unfold parse_record_date. repeat case_match; reflexivity.
Qed.

Lemma parse_record_date_Ok data s d s' :
  parse_record_date data s = (Ok d, s') ->
  record_date data = Some d /\ s' = s.
Proof.
  rewrite parse_record_date_spec. unfold record_date.
  repeat case_match; intros; simplify_eq; auto.
Qed.

Lemma parse_record_date_run data s d :
  record_date data = Some d -> parse_record_date data s = (Ok d, s).
Proof.
  rewrite parse_record_date_spec. unfold record_date.
  repeat case_match; intros; simplify_eq; auto.
Qed.

(** A hit: the entry, with its version set, is returned and stored under
    the key of its own date; nothing is fetched. *)
Lemma serve_hit E input u dt key c t s cached dd :
  RESULTS_DICT s !! key = Some cached -> cached <> ∅ ->
  record_date cached = Some dd ->
  serve_date E input (u, dt, key) c t s
  = (Ok (Json (versioned cached)),
     mkstate (<[make_key dd c t := versioned cached]>
                (<[key := versioned cached]> (RESULTS_DICT s)))
             (TRANSLATE_CACHE s)
             (trace s ++ [Store (make_key dd c t)])).
Proof.
  intros Hhit Hne Hdate. unfold serve_date. run. rewrite Hhit. run.
  rewrite (proj2 (falsy_dict cached) Hne).
  fold (versioned cached).
  rewrite (parse_record_date_run _ _ dd)
    by now rewrite record_date_versioned.
  reflexivity.
Qed.

(** A miss answered by the upstream: one fetch, one store under the key
    of the record's own date. *)
Lemma serve_miss E input u dt key c t s d0 dd :
  RESULTS_DICT s !! key = None ->
  handle E dt c u t = HDict d0 ->
  record_date d0 = Some dd ->
  serve_date E input (u, dt, key) c t s
  = (Ok (Json (versioned d0)),
     mkstate (<[make_key dd c t := versioned d0]> (RESULTS_DICT s))
             (TRANSLATE_CACHE s)
             (trace s ++ [Fetch dt u t] ++ [Store (make_key dd c t)])).
Proof.
  intros Hmiss Hh Hdate. unfold serve_date, _apod_handler. run.
  rewrite Hmiss. run. rewrite Hh.
  rewrite (proj2 (falsy_dict d0) (handle_dict_nonempty _ _ _ _ _ _ Hh)).
  fold (versioned d0).
  rewrite (parse_record_date_run _ _ dd)
    by now rewrite record_date_versioned.
  cbn. now rewrite <- app_assoc.
Qed.

(** A miss the upstream has nothing for: the 404 response, one fetch, no
    store. *)
Lemma serve_absent E input u dt key c t s :
  RESULTS_DICT s !! key = None ->
  handle E dt c u t = HNone ->
  serve_date E input (u, dt, key) c t s
  = (Ok (_abort 404 ("No data available for date: " +:+ str_input input)
                false),
     mkstate (RESULTS_DICT s) (TRANSLATE_CACHE s)
             (trace s ++ [Fetch dt u t])).
Proof.
  intros Hmiss Hh. unfold serve_date, _apod_handler. run.
  rewrite Hmiss. run. rewrite Hh. reflexivity.
Qed.

(** Whenever a record is returned, it is one of the two cases above. *)
Lemma serve_returns E input u dt key c t s r s' :
  serve_date E input (u, dt, key) c t s = (Ok (Json r), s') ->
  exists d0 dd,
    r = versioned d0 /\ record_date r = Some dd /\ d0 <> ∅
    /\ ((RESULTS_DICT s !! key = Some d0
         /\ s' = mkstate (<[make_key dd c t := r]>
                            (<[key := r]> (RESULTS_DICT s)))
                         (TRANSLATE_CACHE s)
                         (trace s ++ [Store (make_key dd c t)]))
        \/ (RESULTS_DICT s !! key = None /\ handle E dt c u t = HDict d0
            /\ s' = mkstate (<[make_key dd c t := r]> (RESULTS_DICT s))
                            (TRANSLATE_CACHE s)
                            (trace s ++ [Fetch dt u t]
                               ++ [Store (make_key dd c t)]))).
Proof.
  intros H.
  destruct (RESULTS_DICT s !! key) as [cached|] eqn:Hlk.
  - destruct (decide (cached = ∅)) as [->|Hne].
    { unfold serve_date in H. run. rewrite Hlk in H. run.
      cbn [falsy] in H.
      rewrite bool_decide_eq_true_2 in H by reflexivity. discriminate. }
    destruct (record_date cached) as [dd|] eqn:Hd.
    + rewrite (serve_hit E input u dt key c t s cached dd Hlk Hne Hd) in H.
      simplify_eq. exists cached, dd.
      rewrite record_date_versioned. auto 10.
    + exfalso. unfold serve_date in H. run. rewrite Hlk in H. run.
      rewrite (proj2 (falsy_dict cached) Hne) in H.
      rewrite parse_record_date_spec in H. fold (versioned cached) in H.
      rewrite <- record_date_versioned in Hd. unfold record_date in Hd.
      repeat case_match; simplify_eq.
  - destruct (handle E dt c u t) as [|d0|resp] eqn:Hh.
    + rewrite (serve_absent E input u dt key c t s Hlk Hh) in H.
      discriminate.
    + destruct (record_date d0) as [dd|] eqn:Hd.
      * rewrite (serve_miss E input u dt key c t s d0 dd Hlk Hh Hd) in H.
        simplify_eq. exists d0, dd. rewrite record_date_versioned.
        pose proof (handle_dict_nonempty _ _ _ _ _ _ Hh). auto 10.
      * exfalso. unfold serve_date, _apod_handler in H. run.
        rewrite Hlk in H. run. rewrite Hh in H.
        rewrite (proj2 (falsy_dict d0)
                   (handle_dict_nonempty _ _ _ _ _ _ Hh)) in H.
        rewrite parse_record_date_spec in H. fold (versioned d0) in H.
        rewrite <- record_date_versioned in Hd. unfold record_date in Hd.
        repeat case_match; simplify_eq.
    + exfalso. unfold serve_date, _apod_handler in H. run.
      rewrite Hlk in H. run. rewrite Hh in H. cbn in H.
      pose proof (handle_response _ _ _ _ _ _ Hh) as Hr.
      simplify_eq.
Qed.

Lemma resolve_absent E c t s :
  resolve_input_date E None c t s
  = (Ok (true, DtNone, make_key (utc_today E) c t), s).
Proof. reflexivity. Qed.

Lemma resolve_empty E c t s :
  resolve_input_date E (Some "") c t s
  = (Ok (true, DtEmpty, make_key (utc_today E) c t), s).
Proof. reflexivity. Qed.

Lemma resolve_explicit E raw d c t s :
  raw <> "" -> strptime_Ymd raw = Some d ->
  date_le begin d -> date_le d (today E) ->
  resolve_input_date E (Some raw) c t s
  = (Ok (false, DtDate d, make_key d c t), s).
Proof.
  intros Hne Hp H1 H2. destruct raw as [|a rest]; [congruence|].
  unfold resolve_input_date, parse_request_date. rewrite Hp. run.
  unfold _validate_date. unfold date_le in *. rewrite H1, H2. reflexivity.
Qed.

(** The resolution of the date never touches the state, and fails only
    on a non-empty string. *)
Lemma resolve_cases E input c t s :
  (match input with Some (String _ _) => False | _ => True end
   /\ resolve_input_date E input c t s
      = (Ok (true, match input with None => DtNone | _ => DtEmpty end,
             make_key (utc_today E) c t), s))
  \/ (exists raw, input = Some raw /\ raw <> ""
      /\ ((strptime_Ymd raw = None
           /\ resolve_input_date E input c t s
              = (Raise (MalformedDate raw), s))
          \/ (exists d, strptime_Ymd raw = Some d
              /\ ((date_lt d begin \/ date_lt (today E) d)
                  /\ resolve_input_date E input c t s
                     = (Raise (OutOfRangeDate (out_of_range_message E)), s)
                  \/ (date_le begin d /\ date_le d (today E)
                      /\ resolve_input_date E input c t s
                         = (Ok (false, DtDate d, make_key d c t), s)))))).
Proof.
  destruct input as [[|a rest]|]; [left; split; [exact I|reflexivity]| |
                                   left; split; [exact I|reflexivity]].
  right. exists (String a rest). split; [reflexivity|]. split; [discriminate|].
  unfold resolve_input_date, parse_request_date.
  destruct (strptime_Ymd (String a rest)) as [d|] eqn:Hp;
    [right|left; split; reflexivity].
  exists d. split; [reflexivity|]. run.
  unfold _validate_date, date_lt, date_le, out_of_range_message.
  destruct (date_ltb (today E) d) eqn:H1; cbn [orb].
  - left. split; [now right|reflexivity].
  - destruct (date_ltb d begin) eqn:H2.
    + left. split; [now left|reflexivity].
    + right. repeat split.
Qed.

(** Whenever [_get_json_for_date] returns a record, that record carries a
    date which parses, it has its version, and the one assignment to
    [RESULTS_DICT] made by the call stores it under the key computed from
    that date. *)
Lemma single_returns E input c t s r s' :
  _get_json_for_date E input c t s = (Ok (Json r), s') ->
  exists dd evs,
    record_date r = Some dd
    /\ r !! "service_version" = Some (JStr "v1") /\ r <> ∅
    /\ RESULTS_DICT s' !! make_key dd c t = Some r
    /\ TRANSLATE_CACHE s' = TRANSLATE_CACHE s
    /\ trace s' = (trace s ++ evs)%list
    /\ stores evs = [make_key dd c t].
Proof.
  unfold _get_json_for_date. intros H. unfold bind at 1 in H.
  destruct (resolve_cases E input c t s) as
    [[_ Hr]|(raw & -> & Hne & [[_ Hr]|(d & _ & [[_ Hr]|(_ & _ & Hr)])])];
    rewrite Hr in H; try discriminate.
  - apply serve_returns in H as (d0 & dd & -> & Hd & _ & [[_ ->]|(_ & _ & ->)]);
      exists dd; eexists; cbn [RESULTS_DICT TRANSLATE_CACHE trace];
      rewrite lookup_insert_eq;
      (repeat split; [exact Hd|apply versioned_version|
                      apply versioned_nonempty|..]); reflexivity.
  - apply serve_returns in H as (d0 & dd & -> & Hd & _ & [[_ ->]|(_ & _ & ->)]);
      exists dd; eexists; cbn [RESULTS_DICT TRANSLATE_CACHE trace];
      rewrite lookup_insert_eq;
      (repeat split; [exact Hd|apply versioned_version|
                      apply versioned_nonempty|..]); reflexivity.
Qed.

(** An entry stored under the key of its own date is served as it is:
    no fetch, and the dictionary stays what it was. *)
Lemma serve_from_cache E input u dt c t s r dd :
  RESULTS_DICT s !! make_key dd c t = Some r ->
  r !! "service_version" = Some (JStr "v1") -> r <> ∅ ->
  record_date r = Some dd ->
  serve_date E input (u, dt, make_key dd c t) c t s
  = (Ok (Json r),
     mkstate (RESULTS_DICT s) (TRANSLATE_CACHE s)
             (trace s ++ [Store (make_key dd c t)])).
Proof.
  intros Hlk Hv Hne Hd.
  rewrite (serve_hit E input u dt _ c t s r dd Hlk Hne Hd).
  rewrite (versioned_id r Hv), insert_insert_eq.
  now rewrite (insert_id _ _ _ Hlk).
Qed.

(** What [serve_date] can raise: only the three failures of reading the
    record's own date. *)
Lemma serve_raises E input resolved c t s e s' :
  serve_date E input resolved c t s = (Raise e, s') ->
  e = KeyError (JStr "date") \/ e = TypeError
  \/ exists raw, e = UnparsableRecordDate raw.
Proof.
  destruct resolved as [[u dt] key]. unfold serve_date, _apod_handler. run.
  intros H. repeat case_match; simplify_eq; run;
    rewrite parse_record_date_spec in *;
    repeat case_match; simplify_eq; eauto.
Qed.


(** C2 (as amended). If a call for an explicit date returns a record that
    carries that very date, an immediate second call with the same date
    and flags returns the identical record from [RESULTS_DICT]: no call of
    [parse_apod] is made, the only new observation is the assignment of
    the same entry, and both dictionaries are left as they were. *)
Theorem second_call_served_from_cache (E : env) (raw : string) (d : date)
    (c t : flag) (s s1 : state) (r : gmap string json) :
  raw <> "" -> strptime_Ymd raw = Some d ->
  _get_json_for_date E (Some raw) c t s = (Ok (Json r), s1) ->
  record_date r = Some d ->
  _get_json_for_date E (Some raw) c t s1
  = (Ok (Json r),
     mkstate (RESULTS_DICT s1) (TRANSLATE_CACHE s1)
             (trace s1 ++ [Store (make_key d c t)]))
  /\ fetches [Store (make_key d c t)] = [].
Proof.
  intros Hne Hraw H1 Hd. split; [|reflexivity].
  pose proof (single_returns _ _ _ _ _ _ _ H1)
    as (d1 & evs1 & Hd1' & Hv1 & Hn1 & Hlk1 & _ & _ & _).
  assert (d1 = d) as -> by congruence.
  destruct (resolve_cases E (Some raw) c t s) as
    [[Hf _]|(raw' & Heq & _ & [[_ Hr]|(d' & Hp & [[_ Hr]|(Hb & Ht & Hr)])])].
  - destruct raw; [congruence|contradiction].
  - unfold _get_json_for_date, bind in H1. rewrite Hr in H1. discriminate.
  - unfold _get_json_for_date, bind in H1. rewrite Hr in H1. discriminate.
  - simplify_eq. unfold _get_json_for_date, bind.
    rewrite (resolve_explicit E raw' d c t s1) by assumption.
    now apply serve_from_cache.
Qed.

Lemma handle_falsy_dt E c t :
  parse_apod E DtEmpty true t = parse_apod E DtNone true t ->
  handle E DtEmpty c true t = handle E DtNone c true t.
Proof. unfold handle. now intros ->. Qed.

(** C10. An empty [input_date] takes the branch of a missing one: the
    date defaults to today (the default flag is set, the key looked up is
    today's in UTC) and no date is parsed, so the call cannot fail on a
    malformed date. The malformed-date [ValueError] arises exactly for a
    non-empty string that [strptime] rejects. Provided the upstream
    treats the two falsy values of [dt] alike, the call with the empty
    string and the call without a date leave the same [RESULTS_DICT],
    make the same assignments and give the same response, up to the text
    of the 404 message, which quotes the input. *)
Theorem empty_date_defaults_to_today (E : env) (c t : flag) (s : state) :
  resolve_input_date E (Some "") c t s
  = (Ok (true, DtEmpty, make_key (utc_today E) c t), s)
  /\ resolve_input_date E None c t s
     = (Ok (true, DtNone, make_key (utc_today E) c t), s)
  /\ (forall input raw,
        fst (_get_json_for_date E input c t s) = Raise (MalformedDate raw) ->
        input = Some raw /\ raw <> "" /\ strptime_Ymd raw = None)
  /\ (forall raw,
        raw <> "" -> strptime_Ymd raw = None ->
        _get_json_for_date E (Some raw) c t s = (Raise (MalformedDate raw), s))
  /\ (parse_apod E DtEmpty true t = parse_apod E DtNone true t ->
      let a := _get_json_for_date E (Some "") c t s in
      let b := _get_json_for_date E None c t s in
      RESULTS_DICT (snd a) = RESULTS_DICT (snd b)
      /\ stores (trace (snd a)) = stores (trace (snd b))
      /\ match fst a, fst b with
         | Ok (Abort _ _ code_a), Ok (Abort _ _ code_b) => code_a = code_b
         | outcome_a, outcome_b => outcome_a = outcome_b
         end).
Proof.
  split; [reflexivity|]. split; [reflexivity|]. split; [|split].
  - intros input raw H. unfold _get_json_for_date, bind in H.
    destruct (resolve_cases E input c t s) as
      [[_ Hr]|(raw' & -> & Hne & [[Hp Hr]|(d & _ & [[_ Hr]|(_ & _ & Hr)])])];
      rewrite Hr in H; cbn [fst] in H; try discriminate.
    + destruct (serve_date E input _ c t s) as [[a|e] s'] eqn:Hs;
        [discriminate|]. cbn [fst] in H.
      apply serve_raises in Hs as [->|[->|[? ->]]]; discriminate.
    + now simplify_eq.
    + destruct (serve_date E (Some raw') _ c t s) as [[a|e] s'] eqn:Hs;
        [discriminate|]. cbn [fst] in H.
      apply serve_raises in Hs as [->|[->|[? ->]]]; discriminate.
  - intros raw Hne Hp. destruct raw as [|a rest]; [congruence|].
    unfold _get_json_for_date, bind, resolve_input_date, parse_request_date.
    now rewrite Hp.
  - intros Hsame. cbv zeta. unfold _get_json_for_date, bind.
    rewrite resolve_empty, resolve_absent.
    unfold serve_date, _apod_handler. run.
    rewrite (handle_falsy_dt E c t Hsame).
    destruct (RESULTS_DICT s !! make_key (utc_today E) c t) as [cached|];
      run.
    + destruct (falsy (HDict cached)); [cbn; auto|].
      rewrite parse_record_date_spec, lookup_insert_ne by discriminate.
      destruct (cached !! "date") as [[| | |raw| |]|]; cbn; auto.
      destruct (strptime_Ymd raw); cbn; auto.
    + destruct (handle E DtNone c true t) as [|d0|resp] eqn:Hh; cbn [falsy].
      * cbn. rewrite !stores_app. auto.
      * destruct (bool_decide (d0 = ∅)); [cbn; rewrite !stores_app; auto|].
        rewrite !parse_record_date_spec, lookup_insert_ne by discriminate.
        destruct (d0 !! "date") as [[| | |raw| |]|]; cbn;
          rewrite ?stores_app; cbn; auto.
        destruct (strptime_Ymd raw); cbn; rewrite ?stores_app; cbn; auto.
      * cbn. rewrite !stores_app. cbn. destruct resp; auto.
Qed.

End SingleFacts.

(** ** The two batch shapes *)

Module BatchFacts.
Import Calendar Py Service CalendarFacts SingleFacts.

Lemma add_events_nil s : add_events s [] = s.
Proof. destruct s. unfold add_events. cbn. now rewrite app_nil_r. Qed.

Lemma add_events_app s evs1 evs2 :
  add_events (add_events s evs1) evs2 = add_events s (evs1 ++ evs2).
Proof. unfold add_events. cbn. now rewrite app_assoc. Qed.

Lemma apod_handler_run E dt c b t s :
  _apod_handler E dt c b t s
  = (Ok (handle E dt c b t), add_events s [Fetch dt b t]).
Proof. reflexivity. Qed.

Lemma date_fromordinal_run o s :
  1 <= o <= MAXORDINAL -> date_fromordinal o s = (Ok (ord2ymd o), s).
Proof.
  intros H. unfold date_fromordinal. now rewrite fromordinal_Some.
Qed.

Lemma date_fromordinal_frame o :
  exists res, forall s, date_fromordinal o s = (res, s).
Proof.
  unfold date_fromordinal. destruct (fromordinal o); eexists; reflexivity.
Qed.

(** The random loop only fetches: whatever the state, it gives the same
    result and adds the same observations, none of them an assignment to
    [RESULTS_DICT] or a provider request. *)
Lemma random_loop_frame E c t today count ords :
  forall acc, exists res evs,
    stores evs = [] /\ contacts evs = []
    /\ forall s, random_loop E c t today count ords acc s
                 = (res, add_events s evs).
Proof.
  induction ords as [|o rest IH]; intros acc.
  - exists (Ok acc), []. repeat split. intros s.
    now rewrite add_events_nil.
  - cbn [random_loop]. destruct (date_fromordinal_frame o) as [[dt|e] Hd].
    + set (h := handle E (DtDate dt) c (o =? today) t).
      assert (forall acc', exists res evs,
                 stores evs = [] /\ contacts evs = []
                 /\ forall s, random_loop E c t today count rest acc'
                                (add_events s [Fetch (DtDate dt) (o =? today) t])
                              = (res, add_events s evs)) as IH'.
      { intros acc'. destruct (IH acc') as (res & evs & Hs & Hc & Hrun).
        exists res, (Fetch (DtDate dt) (o =? today) t :: evs).
        repeat split; [exact Hs|exact Hc|].
        intros s. rewrite Hrun. now rewrite add_events_app. }
      destruct (falsy h) eqn:Hf.
      * destruct (IH' acc) as (res & evs & Hs & Hc & Hrun).
        exists res, evs. repeat split; [exact Hs|exact Hc|]. intros s.
        unfold bind. rewrite Hd, apod_handler_run. fold h. rewrite Hf.
        apply Hrun.
      * destruct h as [|d|resp] eqn:Hh; [discriminate| |].
        -- destruct (count <=? Z.of_nat (length (acc ++ [versioned d])))
             eqn:Hc.
           ++ exists (Ok (acc ++ [versioned d])%list),
                [Fetch (DtDate dt) (o =? today) t].
              repeat split. intros s.
              unfold bind. rewrite Hd, apod_handler_run. fold h.
              rewrite Hh, Hf. fold (versioned d). now rewrite Hc.
           ++ destruct (IH' (acc ++ [versioned d])%list)
                as (res & evs & Hs & Hcc & Hrun).
              exists res, evs. repeat split; [exact Hs|exact Hcc|]. intros s.
              unfold bind. rewrite Hd, apod_handler_run. fold h.
              rewrite Hh, Hf. fold (versioned d). rewrite Hc. apply Hrun.
        -- destruct (IH' acc) as (res & evs & Hs & Hc & Hrun).
           exists res, evs. repeat split; [exact Hs|exact Hc|]. intros s.
           unfold bind. rewrite Hd, apod_handler_run. fold h.
           rewrite Hh, Hf. apply Hrun.
    + exists (Raise e), []. repeat split. intros s.
      unfold bind. rewrite Hd. now rewrite add_events_nil.
Qed.

(** Every record either loop returns has its version set. *)
Lemma random_loop_version E c t today count ords :
  forall acc s l s',
    Forall has_version acc ->
    random_loop E c t today count ords acc s = (Ok l, s') ->
    Forall has_version l.
Proof.
  induction ords as [|o rest IH]; intros acc s l s' Hacc H.
  - cbn in H. unfold ret in H. now simplify_eq.
  - cbn [random_loop] in H. unfold bind in H.
    destruct (date_fromordinal_frame o) as [[dt|e] Hd]; rewrite Hd in H;
      [|discriminate].
    rewrite apod_handler_run in H.
    destruct (falsy _); [now apply IH in H|].
    destruct (handle E (DtDate dt) c (o =? today) t) as [|d|resp];
      [now apply IH in H| |now apply IH in H].
    fold (versioned d) in H.
    assert (Forall has_version (acc ++ [versioned d])) as Hacc'.
    { apply Forall_app. split; [exact Hacc|].
      constructor; [apply versioned_version|constructor]. }
    destruct (count <=? _); [unfold ret in H; now simplify_eq|].
    now apply IH in H.
Qed.

Lemma range_loop_version E c t today ords :
  forall acc s l s',
    Forall has_version acc ->
    range_loop E c t today ords acc s = (Ok l, s') ->
    Forall has_version l.
Proof.
  induction ords as [|o rest IH]; intros acc s l s' Hacc H.
  - cbn in H. unfold ret in H. now simplify_eq.
  - cbn [range_loop] in H. unfold bind in H.
    destruct (date_fromordinal_frame o) as [[dt|e] Hd]; rewrite Hd in H;
      [|discriminate].
    rewrite apod_handler_run in H.
    destruct (falsy _); [now apply IH in H|].
    destruct (handle E (DtDate dt) c (o =? today) t) as [|d|resp];
      [now apply IH in H| |now apply IH in H].
    fold (versioned d) in H.
    destruct (versioned d !! "date") as [[| | |raw| |]|];
      try (now apply IH in H); [|discriminate].
    destruct (String.eqb raw (isoformat dt)); [|now apply IH in H].
    apply IH in H; [exact H|].
    apply Forall_app. split; [exact Hacc|].
    constructor; [apply versioned_version|constructor].
Qed.

(** The random loop, on ordinals of existing dates and below its quota:
    it returns; what it adds was fetched, in order, for some of the
    ordinals; and the quota is kept. *)
Lemma random_loop_result E c t today count ords :
  forall acc s,
    Forall (fun o => 1 <= o <= MAXORDINAL) ords ->
    Z.of_nat (length acc) < count ->
    exists l' days s',
      random_loop E c t today count ords acc s = (Ok (acc ++ l')%list, s')
      /\ days `sublist_of` ords
      /\ Forall2 (fetched_for E c t today) l' days
      /\ Z.of_nat (length (acc ++ l')) <= count.
Proof.
  induction ords as [|o rest IH]; intros acc s Hords Hacc.
  - exists [], [], s. rewrite app_nil_r.
    split; [reflexivity|]. split; [apply sublist_nil_l|].
    split; [constructor|lia].
  - apply Forall_cons in Hords as [Ho Hrest].
    cbn [random_loop]. unfold bind.
    rewrite (date_fromordinal_run o s Ho), apod_handler_run.
    set (s0 := add_events s _).
    assert (exists l' days s',
               random_loop E c t today count rest acc s0
               = (Ok (acc ++ l')%list, s')
               /\ days `sublist_of` (o :: rest)
               /\ Forall2 (fetched_for E c t today) l' days
               /\ Z.of_nat (length (acc ++ l')) <= count) as Hskip.
    { destruct (IH acc s0 Hrest Hacc) as (l' & days & s' & H1 & H2 & H3 & H4).
      exists l', days, s'. repeat split; auto. now apply sublist_cons. }
    destruct (falsy _) eqn:Hf; [exact Hskip|].
    destruct (handle E (DtDate (ord2ymd o)) c (o =? today) t)
      as [|d|resp] eqn:Hh; [exact Hskip| |exact Hskip].
    fold (versioned d).
    assert (fetched_for E c t today (versioned d) o) as Hfor
      by (exists d; auto).
    destruct (count <=? Z.of_nat (length (acc ++ [versioned d]))) eqn:Hc.
    + exists [versioned d], [o], s0. repeat split.
      * apply sublist_skip, sublist_nil_l.
      * constructor; [exact Hfor|constructor].
      * rewrite length_app in *. cbn [length] in *. lia.
    + assert (Z.of_nat (length (acc ++ [versioned d])) < count) as Hacc'
        by lia.
      destruct (IH (acc ++ [versioned d])%list s0 Hrest Hacc')
        as (l' & days & s' & H1 & H2 & H3 & H4).
      exists (versioned d :: l'), (o :: days), s'.
      rewrite <- app_assoc in H1, H4. cbn in H1, H4.
      repeat split; auto; try (now apply sublist_skip); now constructor.
Qed.

Lemma strptime_valid raw d : strptime_Ymd raw = Some d -> valid_date d = true.
Proof.
  unfold strptime_Ymd. intros H. repeat case_match; simplify_eq. assumption.
Qed.

Lemma handle_dated E dt c b t d :
  dated E -> handle E dt c b t = HDict d -> is_Some (d !! "date").
Proof.
  intros Hdated. unfold handle. intros H.
  destruct (parse_apod E dt b t) as [|[page_props|]] eqn:Hp;
    [discriminate| |discriminate].
  pose proof (Hdated _ _ _ _ Hp) as Hdate.
  repeat case_match; simplify_eq; rewrite ?lookup_insert_ne by discriminate;
    exact Hdate.
Qed.

(** The range loop, on ordinals of existing dates and with an upstream
    whose records are dated: one fetch per ordinal, in order, and the
    records kept are those whose own date is the day asked for. *)
Lemma range_loop_spec E c t today ords :
  dated E ->
  Forall (fun o => 1 <= o <= MAXORDINAL) ords ->
  forall acc s,
    range_loop E c t today ords acc s
    = (Ok (acc ++ omap (range_keeps E c t today) ords)%list,
       add_events s
         (map (fun o => Fetch (DtDate (ord2ymd o)) (o =? today) t) ords)).
Proof.
  intros Hdated Hords. induction Hords as [|o rest Ho Hrest IH];
    intros acc s.
  - cbn. unfold ret. now rewrite app_nil_r, add_events_nil.
  - cbn [range_loop omap list_omap map]. unfold bind.
    rewrite (date_fromordinal_run o s Ho), apod_handler_run.
    unfold range_keeps at 1.
    assert (forall acc',
               range_loop E c t today rest acc'
                 (add_events s [Fetch (DtDate (ord2ymd o)) (o =? today) t])
               = (Ok (acc' ++ omap (range_keeps E c t today) rest)%list,
                  add_events s
                    (Fetch (DtDate (ord2ymd o)) (o =? today) t
                     :: map (fun o => Fetch (DtDate (ord2ymd o))
                                            (o =? today) t) rest)))
      as Hnext.
    { intros acc'. rewrite IH. now rewrite add_events_app. }
    destruct (handle E (DtDate (ord2ymd o)) c (o =? today) t)
      as [|d|resp] eqn:Hh; cbn [falsy]; [apply Hnext| |apply Hnext].
    rewrite (bool_decide_eq_false_2 _ (handle_dict_nonempty _ _ _ _ _ _ Hh)).
    rewrite lookup_insert_ne by discriminate.
    destruct (handle_dated E _ _ _ _ _ Hdated Hh) as [v Hv]. rewrite Hv.
    destruct v as [| | |raw| |]; try apply Hnext.
    destruct (String.eqb raw (isoformat (ord2ymd o))); [|apply Hnext].
    fold (versioned d). rewrite Hnext. now rewrite <- app_assoc.
Qed.

Lemma omap_sublist {A B} (f : A -> option B) (l : list A) :
  exists k, k `sublist_of` l /\ Forall2 (fun b a => f a = Some b) (omap f l) k.
Proof.
  induction l as [|a l (k & Hk & HF)]; [exists []; split; constructor|].
  cbn. destruct (f a) as [b|] eqn:Hfa.
  - exists (a :: k). split; [now apply sublist_skip|now constructor].
  - exists k. split; [now apply sublist_cons|exact HF].
Qed.

Lemma sublist_sorted {A} (R : relation A) (k l : list A) :
  k `sublist_of` l -> StronglySorted R l -> StronglySorted R k.
Proof.
  induction 1 as [|x k l Hkl IH|x k l Hkl IH]; intros Hs; [constructor| |].
  - apply StronglySorted_inv in Hs as [Hs Hx]. constructor; [now apply IH|].
    apply Forall_forall. intros y Hy.
    apply (proj1 (Forall_forall _ _) Hx). now apply (sublist_subseteq k l).
  - apply StronglySorted_inv in Hs as [Hs _]. now apply IH.
Qed.

Lemma seqZ_sorted m len : StronglySorted Z.lt (seqZ m len).
Proof.
  destruct (Z_le_gt_dec len 0) as [Hle|Hgt].
  { rewrite seqZ_nil by lia. constructor. }
  rewrite <- (Z2Nat.id len) by lia.
  generalize (Z.to_nat len) as n. clear. intros n. revert m.
  induction n as [|n IH]; intros m; [constructor|].
  rewrite seqZ_cons by lia.
  replace (Z.pred (Z.of_nat (S n))) with (Z.of_nat n) by lia.
  constructor; [apply IH|].
  apply Forall_forall. intros y Hy. apply elem_of_seqZ in Hy. lia.
Qed.

(** Ascending ordinals of existing dates are ascending dates. *)
Lemma ascending_dates days :
  Forall (fun o => 1 <= o) days -> StronglySorted Z.lt days ->
  StronglySorted date_lt (map ord2ymd days).
Proof.
  intros Hpos Hs. induction Hs as [|o days Hs IH Hlt]; [constructor|].
  apply Forall_cons in Hpos as [Ho Hpos]. cbn.
  constructor; [now apply IH|].
  apply Forall_forall. intros d Hd.
  apply list_elem_of_fmap in Hd as (o' & -> & Ho').
  apply ord2ymd_lt; [exact Ho|].
  exact (proj1 (Forall_forall _ _) Hlt o' Ho').
Qed.

Lemma range_keeps_Some E c t today o r :
  range_keeps E c t today o = Some r ->
  fetched_for E c t today r o
  /\ r !! "date" = Some (JStr (isoformat (ord2ymd o))).
Proof.
  unfold range_keeps, fetched_for. intros H.
  destruct (handle E (DtDate (ord2ymd o)) c (o =? today) t)
    as [|d|resp]; try discriminate.
  destruct (d !! "date") as [[| | |raw| |]|] eqn:Hd; try discriminate.
  destruct (String.eqb raw (isoformat (ord2ymd o))) eqn:He;
    [|discriminate].
  apply String.eqb_eq in He. simplify_eq. split; [now exists d|].
  unfold versioned. now rewrite lookup_insert_ne by discriminate.
Qed.

(** C4. For a start and an end date that parse and pass validation:
    when the start is after the end, [_get_json_for_date_range] raises
    the invalid-range [ValueError] and does nothing else; otherwise, the
    upstream's records being dated, it returns, after one fetch per day
    from start to end, exactly the records whose own date is the day they
    were fetched for, the others being dropped without error. The days
    of the records returned are strictly ascending, as ordinals and as
    dates, and each record's [date] field is the ISO form of its day. *)
Theorem range_resolution (E : env) (start_raw end_raw : string)
    (start_dt end_dt : date) (c t : flag) (s : state) :
  end_raw <> "" ->
  strptime_Ymd start_raw = Some start_dt ->
  strptime_Ymd end_raw = Some end_dt ->
  date_le begin start_dt -> date_le start_dt (today E) ->
  date_le begin end_dt -> date_le end_dt (today E) ->
  (date_lt end_dt start_dt ->
     _get_json_for_date_range E start_raw (Some end_raw) c t s
     = (Raise (InvalidRange "start_date cannot be after end_date"), s))
  /\ (~ date_lt end_dt start_dt -> dated E ->
      let ordinals :=
        seqZ (toordinal start_dt)
             (toordinal end_dt + 1 - toordinal start_dt) in
      let kept := omap (range_keeps E c t (toordinal (today E))) ordinals in
      _get_json_for_date_range E start_raw (Some end_raw) c t s
      = (Ok (JsonList kept),
         add_events s
           (map (fun o => Fetch (DtDate (ord2ymd o))
                                (o =? toordinal (today E)) t) ordinals))
      /\ exists days,
           Forall2 (fun r o =>
                      toordinal start_dt <= o <= toordinal end_dt
                      /\ fetched_for E c t (toordinal (today E)) r o
                      /\ r !! "date" = Some (JStr (isoformat (ord2ymd o))))
                   kept days
           /\ StronglySorted Z.lt days
           /\ StronglySorted date_lt (map ord2ymd days)).
Proof.
  intros Hne Hps Hpe Hs1 Hs2 He1 He2.
  pose proof (strptime_valid _ _ Hps) as Hvs.
  pose proof (strptime_valid _ _ Hpe) as Hve.
  pose proof (toordinal_bounds _ Hvs) as Hbs.
  pose proof (toordinal_bounds _ Hve) as Hbe.
  assert (_get_json_for_date_range E start_raw (Some end_raw) c t s
          = (if toordinal end_dt <? toordinal start_dt
             then raise (InvalidRange "start_date cannot be after end_date")
             else
               bind (range_loop E c t (toordinal (today E))
                       (seqZ (toordinal start_dt)
                          (toordinal end_dt + 1 - toordinal start_dt)) [])
                    (fun all_data => ret (JsonList all_data))) s)
    as Hrun.
  { unfold _get_json_for_date_range, parse_request_date.
    destruct end_raw as [|a rest]; [congruence|].
    rewrite Hps, Hpe. run.
    rewrite (ValidationFacts.validate_in_range E start_dt s Hs1 Hs2).
    rewrite (ValidationFacts.validate_in_range E end_dt s He1 He2).
    destruct (toordinal end_dt <? toordinal start_dt); reflexivity. }
  split.
  - intros Hlt.
    pose proof (toordinal_lt _ _ (valid_date_ok _ Hve) (valid_date_ok _ Hvs)
                  Hlt) as Hord.
    rewrite Hrun. replace (toordinal end_dt <? toordinal start_dt) with true
      by (symmetry; apply Z.ltb_lt; lia).
    reflexivity.
  - intros Hnlt Hdated. cbv zeta.
    assert (toordinal start_dt <= toordinal end_dt) as Hord.
    { destruct (Z_le_gt_dec (toordinal start_dt) (toordinal end_dt));
        [assumption|].
      exfalso. apply Hnlt.
      apply toordinal_lt_inv; [now apply valid_date_ok..|lia]. }
    set (ordinals := seqZ (toordinal start_dt)
                          (toordinal end_dt + 1 - toordinal start_dt)).
    assert (Forall (fun o => toordinal start_dt <= o <= toordinal end_dt)
                   ordinals) as Hin.
    { apply Forall_forall. intros o Ho. apply elem_of_seqZ in Ho. lia. }
    split.
    + rewrite Hrun. replace (toordinal end_dt <? toordinal start_dt)
        with false by (symmetry; apply Z.ltb_ge; lia).
      unfold bind. fold ordinals. rewrite range_loop_spec; [reflexivity|
        exact Hdated|].
      eapply Forall_impl; [exact Hin|]. cbn. intros o Ho. lia.
    + destruct (omap_sublist (range_keeps E c t (toordinal (today E)))
                  ordinals) as (days & Hsub & HF).
      assert (Forall (fun o => toordinal start_dt <= o <= toordinal end_dt)
                     days) as Hdays.
      { apply Forall_forall. intros o Ho.
        apply (proj1 (Forall_forall _ _) Hin).
        now apply (sublist_subseteq days ordinals). }
      assert (StronglySorted Z.lt days) as Hsorted
        by (apply (sublist_sorted _ _ _ Hsub), seqZ_sorted).
      exists days. split; [|split; [exact Hsorted|]].
      * clear Hsub Hsorted. induction HF as [|r o l k Hk HF IH];
          [constructor|].
        apply Forall_cons in Hdays as [Ho Hdays].
        constructor; [|now apply IH].
        apply range_keeps_Some in Hk as [? ?]. auto.
      * apply ascending_dates; [|exact Hsorted].
        eapply Forall_impl; [exact Hdays|]. cbn. intros o Ho. lia.
Qed.

(** C6 (as amended). [_get_json_for_random_dates] neither reads nor
    writes [RESULTS_DICT]: whatever the state it starts in, it gives the
    same result and adds the same observations, none of which is an
    assignment to [RESULTS_DICT] or a provider request, and it leaves
    both dictionaries as they were. *)
Theorem random_sample_ignores_cache (E : env) (count : Z) (c t : flag) :
  exists res evs,
    stores evs = [] /\ contacts evs = []
    /\ forall s,
         _get_json_for_random_dates E count c t s = (res, add_events s evs)
         /\ RESULTS_DICT (snd (_get_json_for_random_dates E count c t s))
            = RESULTS_DICT s
         /\ TRANSLATE_CACHE (snd (_get_json_for_random_dates E count c t s))
            = TRANSLATE_CACHE s.
Proof.
  unfold _get_json_for_random_dates.
  destruct ((100 <? count) || (count <=? 0)).
  - exists (Raise (InvalidCount
              "Count must be positive and cannot exceed 100")), [].
    repeat split; unfold raise; cbn; now rewrite ?add_events_nil.
  - cbv zeta.
    destruct (random_loop_frame E c t (toordinal (today E)) count
                (shuffle E (seqZ (toordinal begin)
                   (toordinal (today E) + 1 - toordinal begin))) [])
      as (res & evs & Hs & Hc & Hrun).
    exists (match res with
            | Ok all_data => Ok (JsonList all_data)
            | Raise e => Raise e
            end), evs.
    split; [exact Hs|]. split; [exact Hc|]. intros s.
    unfold bind. rewrite Hrun. destruct res; repeat split.
Qed.

(** The count is checked before anything else. *)
Lemma random_invalid_count E count c t s :
  count <= 0 \/ 100 < count ->
  _get_json_for_random_dates E count c t s
  = (Raise (InvalidCount "Count must be positive and cannot exceed 100"), s).
Proof.
  intros H. unfold _get_json_for_random_dates.
  replace ((100 <? count) || (count <=? 0)) with true; [reflexivity|].
  symmetry. apply orb_true_iff. lia.
Qed.

(** What the random sample does guarantee, for a count from 1 to 100 and
    a shuffle that permutes: it returns at most [count] records, each
    fetched for a day of its own between the first APOD day and today. *)
Lemma random_sample_days E count c t s :
  valid_date (today E) = true ->
  (forall l, shuffle E l ≡ₚ l) ->
  0 < count <= 100 ->
  exists l days s',
    _get_json_for_random_dates E count c t s = (Ok (JsonList l), s')
    /\ Z.of_nat (length l) <= count
    /\ NoDup days
    /\ Forall (fun o => toordinal begin <= o <= toordinal (today E)) days
    /\ Forall2 (fetched_for E c t (toordinal (today E))) l days.
Proof.
  intros Hv Hperm Hcount. unfold _get_json_for_random_dates.
  replace ((100 <? count) || (count <=? 0)) with false
    by (symmetry; apply orb_false_iff; lia).
  cbv zeta.
  set (all := seqZ (toordinal begin)
                   (toordinal (today E) + 1 - toordinal begin)).
  pose proof (toordinal_bounds _ Hv) as Hb.
  assert (Forall (fun o => toordinal begin <= o <= toordinal (today E))
                 (shuffle E all)) as Hin.
  { apply Forall_forall. intros o Ho. rewrite (Hperm all) in Ho.
    apply elem_of_seqZ in Ho. lia. }
  destruct (random_loop_result E c t (toordinal (today E)) count
              (shuffle E all) [] s) as (l & days & s' & Hrun & Hsub & HF & Hlen).
  { eapply Forall_impl; [exact Hin|]. cbn. intros o Ho.
    change (toordinal begin) with 728460 in Ho. lia. }
  { cbn. lia. }
  exists l, days, s'. cbn [app] in Hrun, Hlen.
  unfold bind. rewrite Hrun. repeat split; auto.
  - apply (sublist_NoDup days (shuffle E all)); [|exact Hsub].
    rewrite (Hperm all). apply NoDup_seqZ.
  - apply Forall_forall. intros o Ho.
    apply (proj1 (Forall_forall _ _) Hin).
    now apply (sublist_subseteq days (shuffle E all)).
Qed.

Lemma single_response E input c t s resp s' :
  _get_json_for_date E input c t s = (Ok resp, s') ->
  (exists r, resp = Json r) \/ records_of resp = [].
Proof.
  unfold _get_json_for_date. unfold bind at 1.
  destruct (resolve_input_date E input c t s) as [[[[u dt] key]|e] s0];
    [|discriminate].
  unfold serve_date, _apod_handler. run. intros H.
  destruct (RESULTS_DICT s0 !! key) as [cached|].
  - cbn [falsy] in H. destruct (bool_decide (cached = ∅));
      [simplify_eq; now right|].
    destruct (parse_record_date _ _) as [[d|e] s1] in H;
      simplify_eq. left. eauto.
  - destruct (handle E dt c u t) as [|d0|r0] eqn:Hh; cbn [falsy] in H.
    + simplify_eq. now right.
    + destruct (bool_decide (d0 = ∅)); [simplify_eq; now right|].
      destruct (parse_record_date _ _) as [[d|e] s1] in H;
        simplify_eq. left. eauto.
    + simplify_eq. right. exact (handle_response _ _ _ _ _ _ Hh).
Qed.

(** C9. Every record in a response of any of the three shapes has
    [service_version] equal to ["v1"], and so has the entry that
    single-date resolution leaves in [RESULTS_DICT] for the record it
    returns. *)
Theorem service_version_everywhere (E : env) (c t : flag) (s : state) :
  (forall input resp s',
      _get_json_for_date E input c t s = (Ok resp, s') ->
      Forall has_version (records_of resp)
      /\ forall r, resp = Json r ->
           exists key, RESULTS_DICT s' !! key = Some r /\ has_version r)
  /\ (forall count resp s',
        _get_json_for_random_dates E count c t s = (Ok resp, s') ->
        Forall has_version (records_of resp))
  /\ (forall start_date end_date resp s',
        _get_json_for_date_range E start_date end_date c t s
        = (Ok resp, s') ->
        Forall has_version (records_of resp)).
Proof.
  split; [|split].
  - intros input resp s' H.
    destruct (single_response _ _ _ _ _ _ _ H) as [[r ->]|Hnil].
    + pose proof (single_returns _ _ _ _ _ _ _ H)
        as (dd & evs & _ & Hv & _ & Hlk & _).
      split; [repeat constructor; exact Hv|].
      intros r' Hr'. simplify_eq. eauto.
    + rewrite Hnil. split; [constructor|].
      intros r ->. discriminate.
  - intros count resp s'. unfold _get_json_for_random_dates.
    destruct ((100 <? count) || (count <=? 0)); [discriminate|].
    cbv zeta. unfold bind.
    destruct (random_loop _ _ _ _ _ _ _ _) as [[l|e] s1] eqn:Hl;
      [|discriminate].
    intros H. unfold ret in H. simplify_eq. cbn.
    eapply random_loop_version; [|exact Hl]. constructor.
  - intros start_date end_date resp s'.
    unfold _get_json_for_date_range. run.
    repeat (match goal with
            | |- context [match ?x with _ => _ end] =>
                lazymatch x with
                | range_loop _ _ _ _ _ _ _ => fail
                | _ => destruct x eqn:?
                end
            end; try discriminate).
    all: match goal with
         | |- context [range_loop ?E ?c ?t ?d ?o ?a ?s0] =>
             destruct (range_loop E c t d o a s0) as [[l|?] ?] eqn:Hl
         end; try discriminate.
    all: intros H; simplify_eq; cbn;
      eapply range_loop_version; [|exact Hl]; constructor.
Qed.

End BatchFacts.

(** ** The translation gateway *)

Module TranslationFacts.
Import Calendar Py Service SingleFacts BatchFacts.

Lemma truthy_text text : text <> "" -> truthy (JStr text) = true.
Proof. destruct text; [congruence|reflexivity]. Qed.

Ltac open_translate Hne Hen Hmiss :=
  unfold _translate_to_zh, _translate_with_libretranslate,
    _translate_with_google, response_json;
  rewrite (truthy_text _ Hne), Hen; cbn [negb orb]; run; rewrite Hmiss.

(** Pass-through: an empty text, or translation switched off. *)
Lemma translate_pass_through E text s :
  text = "" \/ TRANSLATE_ENABLED E = false ->
  _translate_to_zh E text s = (Ok (JStr text), s).
Proof.
  unfold _translate_to_zh. intros [-> | ->]; [reflexivity|].
  now rewrite orb_true_r.
Qed.

(** A cached translation is returned without asking anyone. *)
Lemma translate_hit E text s v :
  text <> "" -> TRANSLATE_ENABLED E = true ->
  TRANSLATE_CACHE s !! text = Some v ->
  _translate_to_zh E text s = (Ok v, s).
Proof.
  intros Hne Hen Hhit. unfold _translate_to_zh.
  rewrite (truthy_text _ Hne), Hen. cbn [negb orb]. run. now rewrite Hhit.
Qed.

(** The primary provider answers with a translation. *)
Lemma translate_primary E text s body v :
  text <> "" -> TRANSLATE_ENABLED E = true ->
  TRANSLATE_CACHE s !! text = None ->
  post_libretranslate E text = Body body ->
  translated_text body = Ok v -> truthy v = true ->
  _translate_to_zh E text s
  = (Ok v, mkstate (RESULTS_DICT s) (<[text := v]> (TRANSLATE_CACHE s))
                   (trace s ++ [Primary text])).
Proof.
  intros Hne Hen Hmiss Hp Hv Ht. open_translate Hne Hen Hmiss.
  repeat (progress (cbn; rewrite ?Hp, ?Hv, ?Ht)). reflexivity.
Qed.

(** The primary provider raises one of the two exceptions caught: the
    original text comes back, and the secondary provider is not asked. *)
Lemma translate_primary_raises E text s :
  text <> "" -> TRANSLATE_ENABLED E = true ->
  TRANSLATE_CACHE s !! text = None ->
  post_libretranslate E text = RequestFails
  \/ post_libretranslate E text = BodyNotJson ->
  _translate_to_zh E text s = (Ok (JStr text), add_events s [Primary text]).
Proof.
  intros Hne Hen Hmiss [Hp|Hp]; open_translate Hne Hen Hmiss;
    rewrite Hp; reflexivity.
Qed.

(** The primary provider answers with nothing: the secondary one is
    asked, and its translation, if any, is cached and returned. *)
Lemma translate_secondary E text s body empty data v :
  text <> "" -> TRANSLATE_ENABLED E = true ->
  TRANSLATE_CACHE s !! text = None ->
  post_libretranslate E text = Body body ->
  translated_text body = Ok empty -> truthy empty = false ->
  get_google E text = Body data ->
  joined_fragments data = Ok v -> truthy v = true ->
  _translate_to_zh E text s
  = (Ok v, mkstate (RESULTS_DICT s) (<[text := v]> (TRANSLATE_CACHE s))
                   (trace s ++ [Primary text] ++ [Secondary text])).
Proof.
  intros Hne Hen Hmiss Hp He Het Hg Hv Ht. open_translate Hne Hen Hmiss.
  repeat (progress (cbn; rewrite ?Hp, ?He, ?Het, ?Hg, ?Hv, ?Ht)).
  now rewrite <- app_assoc.
Qed.

(** The primary provider answers with nothing and the secondary fails. *)
Lemma translate_secondary_fails E text s body empty :
  text <> "" -> TRANSLATE_ENABLED E = true ->
  TRANSLATE_CACHE s !! text = None ->
  post_libretranslate E text = Body body ->
  translated_text body = Ok empty -> truthy empty = false ->
  secondary_fails E text ->
  _translate_to_zh E text s
  = (Ok (JStr text), add_events s [Primary text; Secondary text]).
Proof.
  intros Hne Hen Hmiss Hp He Het Hs. open_translate Hne Hen Hmiss.
  repeat (progress (cbn; rewrite ?Hp, ?He, ?Het)).
  destruct Hs as [Hg|[Hg|(data & e2 & Hg & Hj & Hf)]];
    repeat (progress (cbn; rewrite ?Hg, ?Hj, ?Hf));
    unfold add_events; cbn; now rewrite <- ?app_assoc.
Qed.

Lemma contacts_grow l evs :
  contacts evs <> [] -> contacts (l ++ evs) <> contacts l.
Proof.
  unfold contacts. rewrite List.filter_app. intros Hne Heq. apply Hne.
  rewrite <- (app_nil_r (List.filter _ l)) in Heq at 2.
  now apply app_inv_head in Heq.
Qed.

(** An entry of [TRANSLATE_CACHE] is made only for a non-empty
    translation obtained from a provider in this very call, for a text
    that had none, and that translation is what the call returns. *)
Lemma translate_memoizes_success E text s :
  let run := _translate_to_zh E text s in
  RESULTS_DICT (snd run) = RESULTS_DICT s
  /\ (TRANSLATE_CACHE (snd run) = TRANSLATE_CACHE s
      \/ exists v,
           fst run = Ok v /\ truthy v = true
           /\ TRANSLATE_CACHE s !! text = None
           /\ TRANSLATE_CACHE (snd run) = <[text := v]> (TRANSLATE_CACHE s)
           /\ contacts (trace (snd run)) <> contacts (trace s)).
Proof.
  cbv zeta. unfold _translate_to_zh.
  destruct (negb (truthy (JStr text)) || negb (TRANSLATE_ENABLED E));
    [cbn; auto|].
  run. destruct (TRANSLATE_CACHE s !! text) as [v|] eqn:Hlk; [cbn; auto|].
  unfold _translate_with_libretranslate, _translate_with_google,
    response_json. run.
  destruct (post_libretranslate E text) as [| |body]; cbn; auto.
  destruct (translated_text body) as [v|e]; cbn;
    [|destruct (caught (class_of e)); cbn; auto].
  destruct (truthy v) eqn:Hv; repeat (progress (cbn; rewrite ?Hv)).
  - split; [reflexivity|]. right. exists v. repeat split; auto.
    now apply contacts_grow.
  - destruct (get_google E text) as [| |data]; cbn; auto.
    destruct (joined_fragments data) as [v2|e]; cbn;
      [|destruct (caught (class_of e)); cbn; auto].
    destruct (truthy v2) eqn:Hv2; repeat (progress (cbn; rewrite ?Hv2));
      auto.
    split; [reflexivity|]. right. exists v2. repeat split; auto.
    rewrite <- app_assoc. now apply contacts_grow.
Qed.

(** What does hold of the fallback chain: an empty answer of the primary
    provider sends the call to the secondary one, whose translation is
    cached and returned, and an identical second call returns it from
    the cache without asking either provider. *)
Lemma translate_fallback_then_cached E text s body empty data v :
  text <> "" -> TRANSLATE_ENABLED E = true ->
  TRANSLATE_CACHE s !! text = None ->
  post_libretranslate E text = Body body ->
  translated_text body = Ok empty -> truthy empty = false ->
  get_google E text = Body data ->
  joined_fragments data = Ok v -> truthy v = true ->
  exists s1,
    _translate_to_zh E text s = (Ok v, s1)
    /\ contacts (trace s1)
       = (contacts (trace s) ++ [Primary text; Secondary text])%list
    /\ TRANSLATE_CACHE s1 !! text = Some v
    /\ _translate_to_zh E text s1 = (Ok v, s1).
Proof.
  intros Hne Hen Hmiss Hp He Het Hg Hv Ht. eexists.
  split; [now apply (translate_secondary E text s body empty data v)|].
  cbn [trace TRANSLATE_CACHE]. split; [|split].
  - unfold contacts. now rewrite List.filter_app.
  - apply lookup_insert_eq.
  - apply translate_hit; auto. apply lookup_insert_eq.
Qed.

(** C7 (where the code departs from it). The primary provider is down
    (the request raises) and the secondary one would answer "你好" for
    "hello": [_translate_to_zh "hello"] returns "hello", the secondary
    provider is never asked and nothing is cached. The [except] clauses
    close the one [try] that holds both provider calls, so the fallback
    is reached only when the primary provider returns an empty result. *)
Theorem fallback_skipped_when_primary_raises :
  let E := Samples.world Samples.no_data id Samples.provider_down
                         Samples.google_hello in
  post_libretranslate E "hello" = RequestFails
  /\ (exists data, get_google E "hello" = Body data
                   /\ joined_fragments data = Ok (JStr "你好"))
  /\ _translate_to_zh E "hello" initial
     = (Ok (JStr "hello"), add_events initial [Primary "hello"])
  /\ TRANSLATE_CACHE (snd (_translate_to_zh E "hello" initial)) = ∅.
Proof.
  cbv zeta. split; [reflexivity|]. split; [|split].
  - eexists. split; reflexivity.
  - apply translate_primary_raises; try reflexivity; [discriminate|].
    now left.
  - rewrite translate_primary_raises; try reflexivity; [discriminate|].
    now left.
Qed.

(** What does hold of graceful degradation. When both providers fail in
    a way the handlers of [_translate_to_zh] provide for, each by a
    request that raises, an answer that is not JSON, or an empty result,
    the call returns: the original text when the text has no cache entry
    (an earlier translation otherwise), and it leaves both dictionaries
    as they were. Whatever the providers do, a call changes
    [TRANSLATE_CACHE] only by adding, for a text without entry, the
    non-empty translation a provider gave in that call, which is also the
    value returned; a pass-through or a fallback to the original text
    adds nothing. *)
Lemma listed_failures_degrade (E : env) (text : string)
    (s : state) :
  primary_fails E text -> secondary_fails E text ->
  (TRANSLATE_CACHE s !! text = None ->
     exists evs, _translate_to_zh E text s = (Ok (JStr text), add_events s evs))
  /\ (exists v evs, _translate_to_zh E text s = (Ok v, add_events s evs))
  /\ (forall E' text' s',
        let run := _translate_to_zh E' text' s' in
        RESULTS_DICT (snd run) = RESULTS_DICT s'
        /\ (TRANSLATE_CACHE (snd run) = TRANSLATE_CACHE s'
            \/ exists v,
                 fst run = Ok v /\ truthy v = true
                 /\ TRANSLATE_CACHE s' !! text' = None
                 /\ TRANSLATE_CACHE (snd run)
                    = <[text' := v]> (TRANSLATE_CACHE s')
                 /\ contacts (trace (snd run)) <> contacts (trace s'))).
Proof.
  intros Hp Hs.
  assert (TRANSLATE_CACHE s !! text = None ->
          exists evs,
            _translate_to_zh E text s = (Ok (JStr text), add_events s evs))
    as Hmiss.
  { intros Hmiss.
    destruct (decide (text = "")) as [->|Hne].
    { exists []. rewrite add_events_nil.
      apply translate_pass_through. now left. }
    destruct (TRANSLATE_ENABLED E) eqn:Hen.
    2:{ exists []. rewrite add_events_nil.
        apply translate_pass_through. now right. }
    destruct Hp as [Hp|[Hp|(body & empty & Hp & He & Het)]].
    - eexists. apply translate_primary_raises; auto.
    - eexists. apply translate_primary_raises; auto.
    - eexists. now apply (translate_secondary_fails E text s body empty). }
  split; [exact Hmiss|]. split; [|intros; apply translate_memoizes_success].
  destruct (TRANSLATE_CACHE s !! text) as [v|] eqn:Hlk.
  - destruct (decide (text = "")) as [->|Hne].
    { exists (JStr ""), []. rewrite add_events_nil.
      apply translate_pass_through. now left. }
    destruct (TRANSLATE_ENABLED E) eqn:Hen.
    + exists v, []. rewrite add_events_nil. now apply translate_hit.
    + exists (JStr text), []. rewrite add_events_nil.
      apply translate_pass_through. now right.
  - destruct (Hmiss eq_refl) as [evs Hrun]. now exists (JStr text), evs.
Qed.

(** Reading the secondary provider's answer raises a [TypeError], an
    [IndexError] or a [KeyError], none of which [_translate_to_zh]
    catches. *)
Lemma subscript0_uncaught part e :
  subscript0 part = Raise e -> caught (class_of e) = false.
Proof.
  destruct part as [| | |str|[|x items]|pairs]; cbn; intros H;
    repeat case_match; now simplify_eq.
Qed.

Lemma first_fragments_uncaught parts e :
  first_fragments parts = Raise e -> caught (class_of e) = false.
Proof.
  induction parts as [|part rest IH]; cbn [first_fragments]; [discriminate|].
  destruct (truthy part); [|exact IH].
  destruct (subscript0 part) as [fragment|e0] eqn:Hsub.
  - destruct (first_fragments rest) as [fragments|e1]; [discriminate|].
    intros [= <-]. now apply IH.
  - intros [= <-]. now apply (subscript0_uncaught part).
Qed.

Lemma join_empty_uncaught items e :
  join_empty items = Raise e -> caught (class_of e) = false.
Proof.
  induction items as [|item rest IH]; cbn [join_empty]; [discriminate|].
  destruct item; try (now intros [= <-]).
  destruct (join_empty rest) as [joined|e0]; [discriminate|].
  intros [= <-]. now apply IH.
Qed.

Lemma joined_fragments_uncaught data e :
  joined_fragments data = Raise e -> caught (class_of e) = false.
Proof.
  unfold joined_fragments.
  destruct data as [| | | |[|first others]|]; try discriminate.
  destruct (iterate first) as [parts|e0] eqn:Hit.
  - destruct (first_fragments parts) as [fragments|e1] eqn:Hff.
    + destruct (join_empty fragments) as [joined|e2] eqn:Hj; [discriminate|].
      intros [= <-]. now apply (join_empty_uncaught fragments).
    + intros [= <-]. now apply (first_fragments_uncaught parts).
  - intros [= <-]. destruct first; cbn in Hit; now simplify_eq.
Qed.

(** C8 (where the code departs from it). A provider can also fail by
    answering with JSON of another shape than the one the module reads,
    a malformed response that is valid JSON. For a text to translate
    that has no cache entry: when the primary provider answers with
    anything but an object, [.get] raises an [AttributeError]; when the
    primary result is empty and reading the secondary provider's answer
    raises (a segment that is a number, say, gives a [TypeError]), that
    exception is none of the two classes caught. Either way
    [_translate_to_zh] raises instead of returning the original text. *)
Theorem wrong_shape_answer_escapes (E : env) (text : string) (s : state) :
  text <> "" -> TRANSLATE_ENABLED E = true ->
  TRANSLATE_CACHE s !! text = None ->
  (forall body,
      post_libretranslate E text = Body body ->
      match body with JObj _ => False | _ => True end ->
      _translate_to_zh E text s
      = (Raise AttributeError, add_events s [Primary text]))
  /\ (forall body empty data e,
        post_libretranslate E text = Body body ->
        translated_text body = Ok empty -> truthy empty = false ->
        get_google E text = Body data ->
        joined_fragments data = Raise e ->
        _translate_to_zh E text s
        = (Raise e, add_events s [Primary text; Secondary text])).
Proof.
  intros Hne Hen Hmiss. split.
  - intros body Hp Hshape. open_translate Hne Hen Hmiss. rewrite Hp.
    destruct body; try contradiction; reflexivity.
  - intros body empty data e Hp He Het Hg Hj.
    pose proof (joined_fragments_uncaught data e Hj) as Hun.
    open_translate Hne Hen Hmiss.
    repeat (progress (cbn; rewrite ?Hp, ?He, ?Het, ?Hg, ?Hj, ?Hun)).
    unfold add_events. cbn. now rewrite <- app_assoc.
Qed.

End TranslationFacts.

(** ** The theorems at work on the sample worlds *)

Module Runs.
Import Calendar Py Service Samples.
Import ValidationFacts SingleFacts BatchFacts TranslationFacts.

Lemma validate_date_range_witness :
  _validate_date plain (day 2020 1 1) initial = (Ok tt, initial)
  /\ fst (_validate_date plain (day 2027 1 1) initial)
     = Raise (OutOfRangeDate
                "Date must be between Jun 16, 1995 and Jan 02, 2026.").
Proof.
  split.
  - apply (proj1 (validate_date_range plain (day 2020 1 1) initial)).
    split; reflexivity.
  - destruct (proj2 (validate_date_range plain (day 2027 1 1) initial)
                (or_intror eq_refl)) as [H _].
    rewrite H. reflexivity.
Defined.



Lemma second_call_served_from_cache_witness :
  let first :=
    _get_json_for_date plain (Some "2020-01-01") no_flag no_flag initial in
  _get_json_for_date plain (Some "2020-01-01") no_flag no_flag (snd first)
  = (Ok (Json (the_record first)),
     add_events (snd first) [Store "2020y1m1dFalseFalse"]).
Proof.
  cbv zeta.
  set (first := _get_json_for_date plain (Some "2020-01-01") no_flag
                                   no_flag initial).
  destruct (second_call_served_from_cache plain "2020-01-01" (day 2020 1 1)
              no_flag no_flag initial (snd first) (the_record first))
    as [H _]; [discriminate|vm_compute; reflexivity..|].
  exact H.
Defined.

(** C2, a counterexample to the specification's sentence: the upstream has
    nothing for
    2020-01-01, a date in range; both calls answer 404, and the second
    fetches again, nothing having been cached by the first. *)
Lemma second_call_fetches_again :
  let first :=
    _get_json_for_date nothing_upstream (Some "2020-01-01") no_flag no_flag
                       initial in
  let second :=
    _get_json_for_date nothing_upstream (Some "2020-01-01") no_flag no_flag
                       (snd first) in
  date_le begin (day 2020 1 1)
  /\ date_le (day 2020 1 1) (today nothing_upstream)
  /\ records_of_run first = [] /\ records_of_run second = []
  /\ RESULTS_DICT (snd first) = ∅
  /\ fetches (trace (snd first)) = [(DtDate (day 2020 1 1), false, no_flag)]
  /\ fetches (trace (snd second))
     = [(DtDate (day 2020 1 1), false, no_flag);
        (DtDate (day 2020 1 1), false, no_flag)].
Proof. vm_compute. repeat split. Qed.

(** C6, a counterexample to the specification's sentence: a random sample
    of one fetches
    the record of 2026-01-02 and returns it, and [RESULTS_DICT], empty
    before, is empty after. *)
Lemma random_fetch_is_not_cached :
  let run := _get_json_for_random_dates plain 1 no_flag no_flag initial in
  records_of_run run = [versioned (apod_of (day 2026 1 2))]
  /\ fetches (trace (snd run)) = [(DtDate (day 2026 1 2), true, no_flag)]
  /\ RESULTS_DICT (snd run) = ∅.
Proof. vm_compute. repeat split. Qed.

(** C5 (where the code departs from it). The server is a day ahead of
    the upstream, [count] is 2 and the shuffle puts today first, then
    yesterday: the lookup for today, flagged as defaulted, comes back
    with yesterday's record, and so does the lookup for yesterday. The
    two records returned carry the same date. The range shape drops such
    a record by comparing its date with the day asked for; this shape
    has no such check. *)
Theorem random_sample_repeats_a_date :
  let run := _get_json_for_random_dates behind 2 no_flag no_flag initial in
  fetches (trace (snd run))
  = [(DtDate (day 2026 1 2), true, no_flag);
     (DtDate (day 2026 1 1), false, no_flag)]
  /\ map (fun r => r !! "date") (records_of_run run)
     = [Some (JStr "2026-01-01"); Some (JStr "2026-01-01")].
Proof. vm_compute. repeat split. Qed.

Lemma upstream_dated latest order primary secondary :
  dated (world (upstream latest) order primary secondary).
Proof.
  intros dt b t page_props. cbn. unfold upstream.
  repeat case_match; intros; simplify_eq; unfold apod_of;
    rewrite lookup_insert_eq; eauto.
Qed.

Lemma range_resolution_witness :
  map (fun r => r !! "date")
      (records_of_run
         (_get_json_for_date_range behind "2025-12-30" (Some "2026-01-02")
                                   no_flag no_flag initial))
  = [Some (JStr "2025-12-30"); Some (JStr "2025-12-31");
     Some (JStr "2026-01-01")]
  /\ fst (_get_json_for_date_range behind "2026-01-02" (Some "2025-12-30")
                                   no_flag no_flag initial)
     = Raise (InvalidRange "start_date cannot be after end_date").
Proof.
  split.
  - destruct (range_resolution behind "2025-12-30" "2026-01-02"
                (day 2025 12 30) (day 2026 1 2) no_flag no_flag initial)
      as [_ H]; [discriminate|reflexivity..|].
    destruct H as [H _]; [discriminate|apply upstream_dated|].
    rewrite H. vm_compute. reflexivity.
  - destruct (range_resolution behind "2026-01-02" "2025-12-30"
                (day 2026 1 2) (day 2025 12 30) no_flag no_flag initial)
      as [H _]; [discriminate|reflexivity..|].
    rewrite (H eq_refl). reflexivity.
Defined.

Lemma service_version_everywhere_witness :
  Forall has_version
    (records_of_run
       (_get_json_for_date plain (Some "2020-01-01") no_flag no_flag
                           initial))
  /\ Forall has_version
       (records_of_run
          (_get_json_for_random_dates plain 3 no_flag no_flag initial))
  /\ Forall has_version
       (records_of_run
          (_get_json_for_date_range plain "2025-12-30" None no_flag no_flag
                                    initial)).
Proof.
  destruct (service_version_everywhere plain no_flag no_flag initial)
    as (H1 & H2 & H3).
  split; [|split].
  - destruct (_get_json_for_date plain (Some "2020-01-01") no_flag no_flag
                                 initial) as [[resp|e] s'] eqn:Hrun;
      [|constructor].
    exact (proj1 (H1 _ _ _ Hrun)).
  - destruct (_get_json_for_random_dates plain 3 no_flag no_flag initial)
      as [[resp|e] s'] eqn:Hrun; [|constructor].
    exact (H2 _ _ _ Hrun).
  - destruct (_get_json_for_date_range plain "2025-12-30" None no_flag
                                       no_flag initial)
      as [[resp|e] s'] eqn:Hrun; [|constructor].
    exact (H3 _ _ _ _ Hrun).
Defined.

Lemma empty_date_defaults_to_today_witness :
  fst (_get_json_for_date plain (Some "") no_flag no_flag initial)
  = fst (_get_json_for_date plain None no_flag no_flag initial)
  /\ _get_json_for_date plain (Some "yesterday") no_flag no_flag initial
     = (Raise (MalformedDate "yesterday"), initial).
Proof.
  destruct (empty_date_defaults_to_today plain no_flag no_flag initial)
    as (_ & _ & _ & Hbad & Hsame).
  split.
  - destruct (Hsame eq_refl) as (_ & _ & H). exact H.
  - apply Hbad; [discriminate|reflexivity].
Defined.

Lemma listed_failures_degrade_witness :
  _translate_to_zh (world no_data id provider_empty provider_down) "hello"
                   initial
  = (Ok (JStr "hello"),
     add_events initial [Primary "hello"; Secondary "hello"]).
Proof.
  destruct (listed_failures_degrade
              (world no_data id provider_empty provider_down) "hello" initial)
    as (H & _);
    [right; right; exists (JObj []), JNull; repeat split|now left|].
  destruct (H eq_refl) as [evs Hrun]. rewrite Hrun. f_equal.
  apply (f_equal snd) in Hrun. cbn [snd] in Hrun.
  apply (f_equal trace) in Hrun. vm_compute in Hrun.
  unfold add_events. cbn. now rewrite <- Hrun.
Defined.

Lemma wrong_shape_answer_escapes_witness :
  _translate_to_zh (world no_data id provider_list provider_down) "hello"
                   initial
  = (Raise AttributeError, add_events initial [Primary "hello"])
  /\ _translate_to_zh (world no_data id provider_empty google_numbers)
                      "hello" initial
     = (Raise TypeError,
        add_events initial [Primary "hello"; Secondary "hello"]).
Proof.
  split.
  - destruct (wrong_shape_answer_escapes
                (world no_data id provider_list provider_down) "hello"
                initial) as [H _]; [discriminate|reflexivity..|].
    exact (H (JArr []) eq_refl I).
  - destruct (wrong_shape_answer_escapes
                (world no_data id provider_empty google_numbers) "hello"
                initial) as [_ H]; [discriminate|reflexivity..|].
    exact (H (JObj []) JNull (JArr [JArr [JNum 5]]) TypeError
             eq_refl eq_refl eq_refl eq_refl eq_refl).
Defined.

End Runs.

(** ** The endpoint *)

Module EndpointFacts.
Import Calendar Py Service Endpoint SingleFacts BatchFacts.

(** X1. [_validate] accepts a request exactly when every field in it is
    one of the seven allowed ones; a request without fields passes. *)
Theorem validate_allowed_fields (data : list (string * string)) :
  _validate data = true
  <-> forall k v, (k, v) ∈ data -> k ∈ ALLOWED_APOD_FIELDS.
Proof.
  induction data as [|[key val] rest IH]; cbn [_validate].
  - split; [intros _ k v H; inversion H|reflexivity].
  - destruct (existsb (String.eqb key) ALLOWED_APOD_FIELDS) eqn:Hk.
    + apply existsb_exists in Hk as (a & Ha & Heq).
      apply String.eqb_eq in Heq. subst a. apply list_elem_of_In in Ha.
      rewrite IH. split.
      * intros H k v Hkv. apply elem_of_cons in Hkv as [Heq|Hkv];
          [now simplify_eq|eauto].
      * intros H k v Hkv. apply (H k v). now right.
    + split; [discriminate|]. intros H. exfalso.
      assert (key ∈ ALLOWED_APOD_FIELDS) as Hin by (apply (H key val); now left).
      apply list_elem_of_In in Hin.
      assert (existsb (String.eqb key) ALLOWED_APOD_FIELDS = true) as Hex.
      { apply existsb_exists. exists key. split; [exact Hin|].
        apply String.eqb_refl. }
      congruence.
Qed.

Lemma lower_nonempty s : lower s <> "" -> s <> "".
Proof. destruct s; [intros H; now apply H|discriminate]. Qed.


Section WithBuiltins.
Context (E : env) (py_int : string -> Z + string)
        (library_message : exn -> string).

(** X3. A request with a field outside the allowed ones is answered with
    400 and the usage text before anything else is looked at: nothing is
    fetched and no dictionary changes. *)
Theorem unknown_field_rejected (args : list (string * string))
    (k v : string) (s : state) :
  (k, v) ∈ args -> k ∉ ALLOWED_APOD_FIELDS ->
  apod E py_int library_message args s
  = (Abort "v1"
       ("Bad Request: incorrect field passed. " +:+ _usage "', '" "'" +:+ "'")
       400, s).
Proof.
  intros Hin Hk. unfold apod.
  destruct (_validate args) eqn:Hv; [|reflexivity].
  exfalso. apply Hk. exact (proj1 (validate_allowed_fields args) Hv k v Hin).
Qed.

(** X4. The three query shapes exclude each other. With valid flags: no
    [count], [start_date] or [end_date] selects the single date; a [count]
    alone the random sample; a [start_date] without [count] and [date] the
    range; every other combination (a [count] with anything else, a [date]
    with a [start_date], an [end_date] without [start_date]) is answered
    with 400 and touches nothing. *)
Theorem dispatch_table (args : list (string * string)) (s : state) :
  let d := negb (absent (args_get args "date")) in
  let c := negb (absent (args_get args "count")) in
  let b := negb (absent (args_get args "start_date")) in
  let e := negb (absent (args_get args "end_date")) in
  let tags := flag_arg args "concept_tags" in
  let thumbs := flag_arg args "thumbs" in
  _validate_bools [tags; thumbs] = true ->
  dispatch E py_int args s
  = if c && (d || b || e) || negb c && (b && d || e && negb b) then
      (Ok (_abort 400 "Bad Request: invalid field combination passed." true), s)
    else if c then
      match py_int (default "" (args_get args "count")) with
      | inl n => _get_json_for_random_dates E n tags thumbs s
      | inr msg => (Raise (InvalidCount msg), s)
      end
    else if b then
      _get_json_for_date_range E (default "" (args_get args "start_date"))
                               (args_get args "end_date") tags thumbs s
    else _get_json_for_date E (args_get args "date") tags thumbs s.
Proof.
  cbv zeta. intros Hb. unfold dispatch. rewrite Hb. cbn [negb].
  destruct (absent (args_get args "date")),
           (absent (args_get args "count")),
           (absent (args_get args "start_date")),
           (absent (args_get args "end_date")); cbn [negb andb orb];
    try reflexivity;
    destruct (py_int _); reflexivity.
Qed.

End WithBuiltins.

End EndpointFacts.

(** ** Cache keys and the cache invariant *)

Module KeyFacts.
Import Calendar Py Service Invariants CalendarFacts SingleFacts BatchFacts.

Lemma uint_digits_only u : digits_only (NilEmpty.string_of_uint u).
Proof.
  induction u; cbn; try exact I; (split; [eexists; reflexivity|assumption]).
Qed.

Lemma str_int_pos n :
  0 < n -> exists u, u <> Decimal.Nil /\ Z.to_int n = Decimal.Pos u
                     /\ str_int n = NilEmpty.string_of_uint u.
Proof.
  destruct n as [|p|p]; try lia. intros _.
  exists (Pos.to_uint p). pose proof (DecimalPos.Unsigned.to_uint_nonnil p) as H.
  split; [exact H|]. split; [reflexivity|].
  unfold str_int. cbn. destruct (Pos.to_uint p); [congruence|reflexivity..].
Qed.

Lemma str_int_digits n : 0 < n -> digits_only (str_int n).
Proof.
  intros H. destruct (str_int_pos n H) as (u & _ & _ & ->).
  apply uint_digits_only.
Qed.

Lemma str_int_inj a b : 0 < a -> 0 < b -> str_int a = str_int b -> a = b.
Proof.
  intros Ha Hb Heq.
  destruct (str_int_pos a Ha) as (u & Hu & Hua & _).
  destruct (str_int_pos b Hb) as (v & Hv & Hvb & _).
  unfold str_int in Heq.
  assert (NilZero.int_of_string (NilZero.string_of_int (Z.to_int a))
          = NilZero.int_of_string (NilZero.string_of_int (Z.to_int b)))
    as H by now rewrite Heq.
  rewrite !NilZero.isi in H by (rewrite ?Hua, ?Hvb; congruence).
  apply DecimalZ.to_int_inj. congruence.
Qed.

(** Two strings of digits followed by the same letter and anything: the
    letter is found at the same place. *)
Lemma split_at_letter (a b r1 r2 : string) (c : ascii) :
  digit_of c = None -> digits_only a -> digits_only b ->
  a +:+ String c r1 = b +:+ String c r2 -> a = b /\ r1 = r2.
Proof.
  intros Hc. revert b. induction a as [|x a IH]; intros [|y b] Ha Hb Heq;
    cbn in *.
  - now simplify_eq.
  - simplify_eq. destruct Hb as [[? Hy] _]. congruence.
  - simplify_eq. destruct Ha as [[? Hx] _]. congruence.
  - injection Heq as Hxy Htail. subst y.
    destruct Ha as [_ Ha], Hb as [_ Hb].
    destruct (IH b Ha Hb Htail) as [-> ->]. auto.
Qed.

(** X5. The key names its date: two keys built from dates with positive
    year, month and day are equal only for the same date, whatever the
    flags; with proper booleans for flags, equal keys also mean equal
    flags. Requests for different days, or with different boolean flags,
    never share a cache entry. *)
Theorem key_determines_date (d d' : date) (c t c' t' : flag) :
  0 < year d -> 0 < month d -> 0 < day d ->
  0 < year d' -> 0 < month d' -> 0 < day d' ->
  make_key d c t = make_key d' c' t' ->
  d = d'
  /\ (forall bc bt bc' bt',
        c = FBool bc -> t = FBool bt -> c' = FBool bc' -> t' = FBool bt' ->
        bc = bc' /\ bt = bt').
Proof.
  intros Hy Hm Hd Hy' Hm' Hd'. unfold make_key. intros H.
  change ("y" +:+ ?x) with (String "y" x) in H.
  apply split_at_letter in H as [Hyy H];
    [|reflexivity|now apply str_int_digits..].
  change ("m" +:+ ?x) with (String "m" x) in H.
  apply split_at_letter in H as [Hmm H];
    [|reflexivity|now apply str_int_digits..].
  change ("d" +:+ ?x) with (String "d" x) in H.
  apply split_at_letter in H as [Hdd H];
    [|reflexivity|now apply str_int_digits..].
  apply str_int_inj in Hyy, Hmm, Hdd; try assumption.
  split.
  - destruct d, d'; cbn in *; congruence.
  - intros bc bt bc' bt' -> -> -> ->.
    destruct bc, bt, bc', bt'; cbn in H; try discriminate; auto.
Qed.

Lemma record_date_positive r d :
  record_date r = Some d -> 0 < year d /\ 0 < month d /\ 0 < day d.
Proof.
  unfold record_date. intros H.
  destruct (r !! "date") as [[| | |raw| |]|]; try discriminate.
  apply strptime_valid in H. unfold valid_date, MINYEAR in H.
  repeat (apply andb_true_iff in H as [H ?]). lia.
Qed.

Lemma cache_wf_initial : cache_wf initial.
Proof. intros key r H. cbn in H. now rewrite lookup_empty in H. Qed.

Lemma cache_wf_insert s key r d c t :
  cache_wf s -> has_version r -> r <> ∅ -> record_date r = Some d ->
  key = make_key d c t ->
  forall tc tr, cache_wf (mkstate (<[key := r]> (RESULTS_DICT s)) tc tr).
Proof.
  intros Hwf Hv Hne Hd Hk tc tr key' r'. cbn [RESULTS_DICT].
  rewrite lookup_insert. case_decide.
  - intros [= <-]. subst. eauto 10.
  - apply Hwf.
Qed.

Lemma cache_wf_events s evs : cache_wf s -> cache_wf (add_events s evs).
Proof. intros H key r. apply H. Qed.

Lemma serve_wf E input resolved c t s :
  cache_wf s -> cache_wf (snd (serve_date E input resolved c t s)).
Proof.
  intros Hwf. destruct resolved as [[u dt] key].
  unfold serve_date, _apod_handler. run.
  destruct (RESULTS_DICT s !! key) as [cached|] eqn:Hlk.
  - destruct (Hwf key cached Hlk) as (Hv & Hne & dd & c0 & t0 & Hd & Hk).
    rewrite (proj2 (falsy_dict cached) Hne). fold (versioned cached).
    rewrite (parse_record_date_run _ _ dd)
      by now rewrite record_date_versioned.
    cbn [snd].
    apply (cache_wf_insert
             (mkstate (<[key := versioned cached]> (RESULTS_DICT s))
                      (TRANSLATE_CACHE s) (trace s))
             _ _ dd c t);
      [|apply versioned_version|apply versioned_nonempty|
       now rewrite record_date_versioned|reflexivity].
    apply (cache_wf_insert s key _ dd c0 t0 Hwf);
      [apply versioned_version|apply versioned_nonempty|
       now rewrite record_date_versioned|exact Hk].
  - destruct (handle E dt c u t) as [|d0|resp]; cbn [falsy];
      [now apply cache_wf_events| |now apply cache_wf_events].
    destruct (bool_decide (d0 = ∅)); [now apply cache_wf_events|].
    fold (versioned d0). rewrite parse_record_date_spec.
    destruct (versioned d0 !! "date") as [[| | |raw| |]|] eqn:Hdate;
      try (now apply cache_wf_events).
    destruct (strptime_Ymd raw) as [dd|] eqn:Hp;
      [|now apply cache_wf_events].
    cbn [snd].
    apply (cache_wf_insert (add_events s [Fetch dt u t]) _ _ dd c t);
      [now apply cache_wf_events|apply versioned_version|
       apply versioned_nonempty| |reflexivity].
    unfold record_date. now rewrite Hdate.
Qed.

Lemma single_wf E input c t s :
  cache_wf s -> cache_wf (snd (_get_json_for_date E input c t s)).
Proof.
  intros Hwf. unfold _get_json_for_date. unfold bind at 1.
  destruct (resolve_cases E input c t s) as
    [[_ Hr]|(raw & -> & Hne & [[_ Hr]|(d & _ & [[_ Hr]|(_ & _ & Hr)])])];
    rewrite Hr; try exact Hwf; now apply serve_wf.
Qed.

(** X6. [RESULTS_DICT] starts empty, and whatever [_get_json_for_date]
    does, returning or raising, it leaves every entry a non-empty record
    with its version set, filed under the key of the date that record
    carries. *)
Theorem cache_entries_well_formed (E : env) (input : option string)
    (c t : flag) (s : state) :
  cache_wf initial
  /\ (cache_wf s -> cache_wf (snd (_get_json_for_date E input c t s))).
Proof.
  split; [exact cache_wf_initial|]. apply single_wf.
Qed.

(** X7. Any entry found under the key of the request is served as it is,
    whichever earlier request put it there: the stored record is
    returned, [parse_apod] is not called, and both dictionaries stay as
    they were. This holds for an explicit date and for the default one
    alike. *)
Theorem cached_entry_is_served (E : env) (input : option string) (c t : flag)
    (s : state) (u : bool) (dt : dt_arg) (key : string)
    (r : gmap string json) :
  cache_wf s -> valid_date (utc_today E) = true ->
  resolve_input_date E input c t s = (Ok (u, dt, key), s) ->
  RESULTS_DICT s !! key = Some r ->
  _get_json_for_date E input c t s
  = (Ok (Json r), add_events s [Store key])
  /\ fetches [Store key] = [].
Proof.
  intros Hwf Htoday Hres Hlk. split; [|reflexivity].
  assert (exists d, key = make_key d c t
                    /\ 0 < year d /\ 0 < month d /\ 0 < day d)
    as (d & Hkey & Hpy & Hpm & Hpd).
  { destruct (resolve_cases E input c t s) as
      [[_ Hr]|(raw & -> & Hn & [[_ Hr]|(d & Hp & [[_ Hr]|(_ & _ & Hr)])])];
      rewrite Hr in Hres; simplify_eq.
    - exists (utc_today E). split; [reflexivity|].
      unfold valid_date, MINYEAR in Htoday.
      repeat (apply andb_true_iff in Htoday as [Htoday ?]). lia.
    - exists d. split; [reflexivity|].
      apply strptime_valid in Hp. unfold valid_date, MINYEAR in Hp.
      repeat (apply andb_true_iff in Hp as [Hp ?]). lia. }
  destruct (Hwf key r Hlk) as (Hv & Hne & dd & c0 & t0 & Hd & Hk).
  destruct (record_date_positive r dd Hd) as (Hy & Hm & Hday).
  assert (d = dd) as ->.
  { rewrite Hkey in Hk.
    now destruct (key_determines_date d dd c t c0 t0 Hpy Hpm Hpd Hy Hm Hday
                    Hk) as [-> _]. }
  unfold _get_json_for_date, bind. rewrite Hres. rewrite Hkey in *.
  now apply serve_from_cache.
Qed.

End KeyFacts.

(** ** Dates printed and read back *)

Module RoundTrip.
Import Calendar Py Service Enumeration CalendarFacts SingleFacts BatchFacts.

Lemma all_upto_spec f k : forall r i,
  all_upto f k r = true -> r <= i < r + Z.of_nat k -> f i = true.
Proof.
  induction k as [|k IH]; intros r i H Hi; [lia|].
  cbn [all_upto] in H. apply andb_true_iff in H as [H0 H1].
  destruct (Z.eq_dec i r) as [->|Hne]; [exact H0|].
  apply (IH (r + 1)); [exact H1|lia].
Qed.

Lemma years_print : all_upto year_prints 9999 1 = true.
Proof. vm_compute. reflexivity. Qed.

Lemma months_print : all_upto month_prints 12 1 = true.
Proof. vm_compute. reflexivity. Qed.

Lemma days_print : all_upto day_prints 31 1 = true.
Proof. vm_compute. reflexivity. Qed.

Lemma list_ascii_app s1 s2 :
  list_ascii_of_string (s1 +:+ s2)
  = (list_ascii_of_string s1 ++ list_ascii_of_string s2)%list.
Proof.
  induction s1 as [|c s1 IH]; [reflexivity|].
  change (c :: list_ascii_of_string (s1 +:+ s2)
          = c :: (list_ascii_of_string s1 ++ list_ascii_of_string s2)%list).
  now rewrite IH.
Qed.

(** An ASCII digit is the decimal digit [\d] takes first. *)
Lemma unicode_digit_ascii a l x :
  digit_of a = Some x -> unicode_digit (a :: l) = Some (x, l).
Proof.
  unfold digit_of, unicode_digit, decode_utf8, byte_value.
  set (n := Z.of_N (N_of_ascii a)).
  destruct ((48 <=? n) && (n <=? 57)) eqn:Hn; [|discriminate].
  intros [= <-]. apply andb_true_iff in Hn as [Hlo Hhi].
  apply Z.leb_le in Hlo, Hhi.
  assert (n <? 128 = true) as -> by (apply Z.ltb_lt; lia).
  unfold decimal_value, decimal_zeros. cbn [List.find].
  assert ((48 <=? n) && (n <? 48 + 10) = true) as ->; [|reflexivity].
  apply andb_true_iff. split; [apply Z.leb_le|apply Z.ltb_lt]; lia.
Qed.

Lemma parse_year_ascii c1 c2 c3 c4 a b c d l :
  digit_of c1 = Some a -> digit_of c2 = Some b -> digit_of c3 = Some c ->
  digit_of c4 = Some d ->
  parse_year (c1 :: c2 :: c3 :: c4 :: l)
  = Some (1000 * a + 100 * b + 10 * c + d, l).
Proof.
  intros H1 H2 H3 H4. unfold parse_year.
  now rewrite (unicode_digit_ascii _ _ _ H1), (unicode_digit_ascii _ _ _ H2),
    (unicode_digit_ascii _ _ _ H3), (unicode_digit_ascii _ _ _ H4).
Qed.

(** Two ASCII digits that the two-digit alternatives of [%d] take. *)
Lemma parse_day_two d1 d2 z1 z2 :
  digit_of d1 = Some z1 -> digit_of d2 = Some z2 ->
  ((z1 =? 3) && (z2 <=? 1)) || ((1 <=? z1) && (z1 <=? 2))
  || ((z1 =? 0) && (1 <=? z2)) = true ->
  parse_day [d1; d2] = Some (10 * z1 + z2, []).
Proof.
  intros F1 F2 Hc. unfold parse_day. rewrite F1.
  destruct ((1 <=? z1) && (z1 <=? 2)) eqn:Hmid.
  - now rewrite (unicode_digit_ascii _ _ _ F2).
  - rewrite F2. rewrite orb_false_r in Hc. now rewrite Hc.
Qed.

(** [strptime] reads back what [isoformat] prints, for every date a
    [date] object can hold. *)
Lemma strptime_isoformat d :
  valid_date d = true -> strptime_Ymd (isoformat d) = Some d.
Proof.
  intros Hv. pose proof Hv as Hv'. destruct d as [y m dd].
  unfold valid_date, MINYEAR, MAXYEAR in Hv'. cbn [year month day] in Hv'.
  repeat (apply andb_true_iff in Hv' as [Hv' ?]).
  assert (dd <= 31) as Hdd.
  { assert (days_in_month y m <= 31); [|lia].
    unfold days_in_month, DAYS_IN_MONTH. repeat case_match; lia. }
  assert (year_prints y = true) as Hy.
  { apply (all_upto_spec _ _ 1 y years_print).
    change (Z.of_nat 9999) with 9999. lia. }
  assert (month_prints m = true) as Hm.
  { apply (all_upto_spec _ _ 1 m months_print).
    change (Z.of_nat 12) with 12. lia. }
  assert (day_prints dd = true) as Hd.
  { apply (all_upto_spec _ _ 1 dd days_print).
    change (Z.of_nat 31) with 31. lia. }
  unfold year_prints in Hy. unfold month_prints in Hm. unfold day_prints in Hd.
  unfold strptime_Ymd, isoformat. cbn [year month day].
  rewrite !list_ascii_app.
  destruct (list_ascii_of_string (zfill 4 (str_int y)))
    as [|c1 [|c2 [|c3 [|c4 [|? ?]]]]]; try discriminate.
  destruct (digit_of c1) as [a1|] eqn:E1; [|discriminate].
  destruct (digit_of c2) as [a2|] eqn:E2; [|discriminate].
  destruct (digit_of c3) as [a3|] eqn:E3; [|discriminate].
  destruct (digit_of c4) as [a4|] eqn:E4; [|discriminate].
  apply Z.eqb_eq in Hy.
  destruct (list_ascii_of_string (zfill 2 (str_int m)))
    as [|m1 [|m2 [|? ?]]]; try discriminate.
  destruct (list_ascii_of_string (zfill 2 (str_int dd)))
    as [|d1 [|d2 [|? ?]]]; try discriminate.
  cbn [app list_ascii_of_string].
  rewrite (parse_year_ascii _ _ _ _ _ _ _ _ _ E1 E2 E3 E4), Hy.
  cbn [Ascii.eqb Bool.eqb].
  destruct (digit_of d1) as [z1|] eqn:F1; [|discriminate].
  destruct (digit_of d2) as [z2|] eqn:F2; [|discriminate].
  apply andb_true_iff in Hd as [Hd1 Hd2]. apply Z.eqb_eq in Hd2.
  unfold parse_month.
  destruct (digit_of m1) as [x1|], (digit_of m2) as [x2|]; try discriminate.
  apply andb_true_iff in Hm as [Hm1 Hm2]. rewrite Hm1. apply Z.eqb_eq in Hm2.
  cbn [Ascii.eqb Bool.eqb].
  rewrite (parse_day_two _ _ _ _ F1 F2 Hd1), Hm2, Hd2. now rewrite Hv.
Qed.

(** The same date written with digits of another script where [\d]
    stands in the pattern: the year in fullwidth or Arabic-Indic digits,
    the second digit of the day in Devanagari. The month and the first
    digit of the day have to be ASCII. *)
Lemma strptime_other_scripts :
  strptime_Ymd "２０２０-01-01" = Some (mkdate 2020 1 1)
  /\ strptime_Ymd "٢٠٢٠-1-1" = Some (mkdate 2020 1 1)
  /\ strptime_Ymd "2020-01-1५" = Some (mkdate 2020 1 15)
  /\ strptime_Ymd "2020-01- 5" = Some (mkdate 2020 1 5)
  /\ strptime_Ymd "2020-０１-01" = None
  /\ strptime_Ymd "2020-01-０１" = None.
Proof. vm_compute. repeat split. Qed.

End RoundTrip.

(** ** More on the range shape *)

Module RangeFacts.
Import Calendar Py Service CalendarFacts SingleFacts BatchFacts RoundTrip.

(** The range loop only fetches, whatever state it runs in. *)
Lemma range_loop_frame E c t today ords :
  forall acc, exists res evs,
    stores evs = [] /\ contacts evs = []
    /\ forall s, range_loop E c t today ords acc s = (res, add_events s evs).
Proof.
  induction ords as [|o rest IH]; intros acc.
  - exists (Ok acc), []. repeat split. intros s. now rewrite add_events_nil.
  - cbn [range_loop]. destruct (date_fromordinal_frame o) as [[dt|e] Hd].
    + assert (forall acc', exists res evs,
                 stores evs = [] /\ contacts evs = []
                 /\ forall s, range_loop E c t today rest acc'
                                (add_events s [Fetch (DtDate dt) (o =? today) t])
                              = (res, add_events s evs)) as IH'.
      { intros acc'. destruct (IH acc') as (res & evs & Hs & Hc & Hrun).
        exists res, (Fetch (DtDate dt) (o =? today) t :: evs).
        repeat split; [exact Hs|exact Hc|].
        intros s. rewrite Hrun. now rewrite add_events_app. }
      assert (forall (k : M (list (gmap string json))) acc',
                 (forall s, k (add_events s [Fetch (DtDate dt) (o =? today) t])
                            = range_loop E c t today rest acc'
                                (add_events s
                                   [Fetch (DtDate dt) (o =? today) t])) ->
                 exists res evs,
                   stores evs = [] /\ contacts evs = []
                   /\ forall s,
                        k (add_events s [Fetch (DtDate dt) (o =? today) t])
                        = (res, add_events s evs)) as Hk.
      { intros k acc' Heq. destruct (IH' acc') as (res & evs & Hs & Hc & Hrun).
        exists res, evs. repeat split; [exact Hs|exact Hc|].
        intros s. now rewrite Heq. }
      destruct (handle E (DtDate dt) c (o =? today) t) as [|d|resp] eqn:Hh.
      * destruct (Hk (range_loop E c t today rest acc) acc (fun _ => eq_refl))
          as (res & evs & Hs & Hc & Hrun).
        exists res, evs. repeat split; [exact Hs|exact Hc|]. intros s.
        unfold bind. rewrite Hd, apod_handler_run, Hh. apply Hrun.
      * destruct (bool_decide (d = ∅)) eqn:Hempty.
        { destruct (Hk (range_loop E c t today rest acc) acc
                      (fun _ => eq_refl)) as (res & evs & Hs & Hc & Hrun).
          exists res, evs. repeat split; [exact Hs|exact Hc|]. intros s.
          unfold bind. rewrite Hd, apod_handler_run, Hh. cbn [falsy].
          rewrite Hempty. apply Hrun. }
        destruct (versioned d !! "date") as [[| | |raw| |]|] eqn:Hdate.
        7:{ exists (Raise (KeyError (JStr "date"))),
              [Fetch (DtDate dt) (o =? today) t].
            repeat split. intros s.
            unfold bind. rewrite Hd, apod_handler_run, Hh. cbn [falsy].
            rewrite Hempty. fold (versioned d). now rewrite Hdate. }
        4:{ destruct (String.eqb raw (isoformat dt)) eqn:Heq.
            - destruct (IH' (acc ++ [versioned d])%list)
                as (res & evs & Hs & Hc & Hrun).
              exists res, evs. repeat split; [exact Hs|exact Hc|]. intros s.
              unfold bind. rewrite Hd, apod_handler_run, Hh. cbn [falsy].
              rewrite Hempty. fold (versioned d). rewrite Hdate, Heq.
              apply Hrun.
            - destruct (IH' acc) as (res & evs & Hs & Hc & Hrun).
              exists res, evs. repeat split; [exact Hs|exact Hc|]. intros s.
              unfold bind. rewrite Hd, apod_handler_run, Hh. cbn [falsy].
              rewrite Hempty. fold (versioned d). rewrite Hdate, Heq.
              apply Hrun. }
        all: destruct (IH' acc) as (res & evs & Hs & Hc & Hrun);
          exists res, evs; (repeat split; [exact Hs|exact Hc|]); intros s;
          unfold bind; rewrite Hd, apod_handler_run, Hh; cbn [falsy];
          rewrite Hempty; fold (versioned d); rewrite Hdate; apply Hrun.
      * destruct (IH' acc) as (res & evs & Hs & Hc & Hrun).
        exists res, evs. repeat split; [exact Hs|exact Hc|]. intros s.
        unfold bind. rewrite Hd, apod_handler_run, Hh. apply Hrun.
    + exists (Raise e), []. repeat split. intros s.
      unfold bind. rewrite Hd. now rewrite add_events_nil.
Qed.

Lemma validate_frame E d :
  exists res, forall s, _validate_date E d s = (res, s).
Proof.
  unfold _validate_date. destruct (_ || _); eexists; reflexivity.
Qed.

Lemma parse_request_frame raw :
  exists res, forall s, parse_request_date raw s = (res, s).
Proof.
  unfold parse_request_date. destruct (strptime_Ymd raw); eexists; reflexivity.
Qed.

(** X9. [_get_json_for_date_range] neither reads nor writes
    [RESULTS_DICT]: whatever state it starts in, it gives the same result,
    by the same fetches, makes no assignment to the dictionary and asks no
    translation provider; a day already cached by a single-date request is
    fetched again. *)
Theorem range_ignores_cache (E : env) (start_date : string)
    (end_date : option string) (c t : flag) :
  exists res evs,
    stores evs = [] /\ contacts evs = []
    /\ forall s,
         _get_json_for_date_range E start_date end_date c t s
         = (res, add_events s evs).
Proof.
  unfold _get_json_for_date_range.
  set (end_raw := match end_date with
                  | Some (String a rest) => String a rest
                  | _ => strftime_Ymd (today E)
                  end).
  destruct (parse_request_frame start_date) as [[start_dt|e] Hps].
  2:{ exists (Raise e), []. repeat split. intros s. unfold bind.
      now rewrite Hps, add_events_nil. }
  destruct (validate_frame E start_dt) as [[[]|e] Hvs].
  2:{ exists (Raise e), []. repeat split. intros s. unfold bind.
      now rewrite Hps, Hvs, add_events_nil. }
  destruct (parse_request_frame end_raw) as [[end_dt|e] Hpe].
  2:{ exists (Raise e), []. repeat split. intros s. unfold bind.
      now rewrite Hps, Hvs, Hpe, add_events_nil. }
  destruct (validate_frame E end_dt) as [[[]|e] Hve].
  2:{ exists (Raise e), []. repeat split. intros s. unfold bind.
      now rewrite Hps, Hvs, Hpe, Hve, add_events_nil. }
  destruct (toordinal end_dt <? toordinal start_dt) eqn:Hlt.
  { exists (Raise (InvalidRange "start_date cannot be after end_date")), [].
    repeat split. intros s. unfold bind.
    rewrite Hps, Hvs, Hpe, Hve, Hlt. unfold raise. now rewrite add_events_nil. }
  destruct (range_loop_frame E c t (toordinal (today E))
              (seqZ (toordinal start_dt)
                    (toordinal end_dt + 1 - toordinal start_dt)) [])
    as (res & evs & Hs & Hc & Hrun).
  exists (match res with
          | Ok all_data => Ok (JsonList all_data)
          | Raise e => Raise e
          end), evs.
  split; [exact Hs|]. split; [exact Hc|]. intros s. unfold bind.
  rewrite Hps, Hvs, Hpe, Hve, Hlt, Hrun. now destruct res.
Qed.

(** X8. Without an [end_date], or with an empty one, the range runs to
    today: for a start date that parses and passes validation, and an
    upstream whose records are dated, the call fetches every day from the
    start to today once, in order, and returns the records whose own date
    is the day they were fetched for. *)
Theorem range_without_end_runs_to_today (E : env) (start_raw : string)
    (start_dt : date) (end_date : option string) (c t : flag) (s : state) :
  valid_date (today E) = true -> dated E ->
  Endpoint.absent end_date = true ->
  strptime_Ymd start_raw = Some start_dt ->
  date_le begin start_dt -> date_le start_dt (today E) ->
  let ordinals :=
    seqZ (toordinal start_dt)
         (toordinal (today E) + 1 - toordinal start_dt) in
  _get_json_for_date_range E start_raw end_date c t s
  = (Ok (JsonList (omap (range_keeps E c t (toordinal (today E))) ordinals)),
     add_events s
       (map (fun o => Fetch (DtDate (ord2ymd o)) (o =? toordinal (today E)) t)
            ordinals)).
Proof.
  intros Htoday Hdated Habs Hps Hs1 Hs2. cbv zeta.
  pose proof (strptime_valid _ _ Hps) as Hvs.
  pose proof (toordinal_bounds _ Hvs) as Hbs.
  pose proof (toordinal_bounds _ Htoday) as Hbt.
  assert (toordinal start_dt <= toordinal (today E)) as Hord.
  { destruct (Z_le_gt_dec (toordinal start_dt) (toordinal (today E)));
      [assumption|].
    exfalso. unfold date_le in Hs2.
    assert (date_lt (today E) start_dt) as Hlt
      by (apply toordinal_lt_inv; [now apply valid_date_ok..|lia]).
    unfold date_lt in Hlt. congruence. }
  assert (date_le begin (today E)) as Hbegin.
  { unfold date_le.
    destruct (date_ltb (today E) begin) eqn:Hlt; [|reflexivity].
    exfalso.
    pose proof (toordinal_lt _ _ (valid_date_ok _ Htoday)
                  (valid_date_ok begin eq_refl) Hlt) as H1.
    destruct (date_trichotomy begin start_dt) as [H|[H|H]].
    - pose proof (toordinal_lt _ _ (valid_date_ok begin eq_refl)
                    (valid_date_ok _ Hvs) H). lia.
    - subst. lia.
    - unfold date_le, date_lt in *. congruence. }
  unfold _get_json_for_date_range, parse_request_date.
  replace (match end_date with
           | Some (String a rest) => String a rest
           | _ => strftime_Ymd (today E)
           end) with (isoformat (today E))
    by (destruct end_date as [[|? ?]|]; try reflexivity; discriminate).
  rewrite Hps, (strptime_isoformat _ Htoday). run.
  rewrite (ValidationFacts.validate_in_range E start_dt s Hs1 Hs2).
  assert (date_le (today E) (today E)) as Hrefl.
  { unfold date_le. destruct (date_ltb (today E) (today E)) eqn:H;
      [exfalso; exact (date_lt_irrefl _ H)|reflexivity]. }
  rewrite (ValidationFacts.validate_in_range E (today E) s Hbegin Hrefl).
  replace (toordinal (today E) <? toordinal start_dt) with false
    by (symmetry; apply Z.ltb_ge; lia).
  rewrite range_loop_spec; [reflexivity|exact Hdated|].
  apply Forall_forall. intros o Ho. apply elem_of_seqZ in Ho. lia.
Qed.

(** The range shape answers with a list or raises. *)
Lemma range_answer_shape E start_date end_date c t s :
  (exists l s', _get_json_for_date_range E start_date end_date c t s
                = (Ok (JsonList l), s'))
  \/ (exists e s', _get_json_for_date_range E start_date end_date c t s
                   = (Raise e, s')).
Proof.
  unfold _get_json_for_date_range. run.
  repeat match goal with
         | |- context [match ?x with _ => _ end] => destruct x
         end; eauto.
Qed.

End RangeFacts.

(** ** Outcomes of single requests, shared entries, the sample run dry *)

Module OutcomeFacts.
Import Calendar Py Service Endpoint CalendarFacts SingleFacts BatchFacts.

Lemma handle_response_is_500 E dt c b t resp :
  handle E dt c b t = HResponse resp ->
  resp = Abort "v1" "Internal Service Error" 500.
Proof.
  unfold handle. intros H. repeat case_match; simplify_eq; reflexivity.
Qed.

(** X10. A single-date request whose key is not cached and for which the
    upstream has nothing ([parse_apod] returns [None] or an empty
    dictionary) is answered with 404 and the message quoting the input,
    after one fetch and without storing anything; when [parse_apod] raises,
    the answer is the 500 "Internal Service Error", again with nothing
    stored. *)
Theorem single_date_without_record (E : env) (input : option string)
    (c t : flag) (s : state) (u : bool) (dt : dt_arg) (key : string) :
  resolve_input_date E input c t s = (Ok (u, dt, key), s) ->
  RESULTS_DICT s !! key = None ->
  (parse_apod E dt u t = Returns None \/ parse_apod E dt u t = Returns (Some ∅) ->
     _get_json_for_date E input c t s
     = (Ok (Abort "v1" ("No data available for date: " +:+ str_input input)
                  404),
        add_events s [Fetch dt u t]))
  /\ (parse_apod E dt u t = Raises ->
      _get_json_for_date E input c t s
      = (Ok (Abort "v1" "Internal Service Error" 500),
         add_events s [Fetch dt u t])).
Proof.
  intros Hres Hmiss. unfold _get_json_for_date, bind. rewrite Hres. split.
  - intros Hnone. apply serve_absent; [exact Hmiss|].
    unfold handle. destruct Hnone as [-> | ->]; reflexivity.
  - intros Hraise. unfold serve_date, _apod_handler. run. rewrite Hmiss. run.
    unfold handle. rewrite Hraise. reflexivity.
Qed.

(** X13. The key renders each flag with [str], so flags that print alike
    share an entry although they may differ in truth: after a request has
    returned a record for an explicit date, a request for that date whose
    flags print the same is served that very record from the cache. The
    string ["False"], which is truthy and so asks for concept tags, prints
    like the boolean [False]. *)
Theorem flags_printing_alike_share_entries (E : env) (raw : string)
    (d : date) (c t c' t' : flag) (s s1 : state) (r : gmap string json) :
  raw <> "" -> strptime_Ymd raw = Some d ->
  str_flag c = str_flag c' -> str_flag t = str_flag t' ->
  _get_json_for_date E (Some raw) c t s = (Ok (Json r), s1) ->
  record_date r = Some d ->
  _get_json_for_date E (Some raw) c' t' s1
  = (Ok (Json r), add_events s1 [Store (make_key d c t)]).
Proof.
  intros Hne Hraw Hc Ht H1 Hd.
  pose proof (single_returns _ _ _ _ _ _ _ H1)
    as (d1 & evs1 & Hd1' & Hv1 & Hn1 & Hlk1 & _ & _ & _).
  assert (d1 = d) as -> by congruence.
  assert (make_key d c' t' = make_key d c t) as Hkey
    by (unfold make_key; now rewrite Hc, Ht).
  destruct (resolve_cases E (Some raw) c t s) as
    [[Hf _]|(raw' & Heq & _ & [[_ Hr]|(d' & Hp & [[_ Hr]|(Hb & Hto & Hr)])])].
  - destruct raw; [congruence|contradiction].
  - unfold _get_json_for_date, bind in H1. rewrite Hr in H1. discriminate.
  - unfold _get_json_for_date, bind in H1. rewrite Hr in H1. discriminate.
  - simplify_eq. unfold _get_json_for_date, bind.
    rewrite (resolve_explicit E raw' d c' t' s1) by assumption.
    rewrite <- Hkey in Hlk1 |- *.
    now rewrite (serve_from_cache E (Some raw') false (DtDate d) c' t' s1 r d
                   Hlk1 Hv1 Hn1 Hd).
Qed.

Lemma random_loop_dry E c t today count ords :
  Forall (fun o => 1 <= o <= MAXORDINAL) ords ->
  (forall dt b, parse_apod E dt b t = Returns None) ->
  forall acc s,
    random_loop E c t today count ords acc s
    = (Ok acc,
       add_events s
         (map (fun o => Fetch (DtDate (ord2ymd o)) (o =? today) t) ords)).
Proof.
  intros Hords Hnone. induction Hords as [|o rest Ho Hrest IH]; intros acc s.
  - cbn. unfold ret. now rewrite add_events_nil.
  - cbn [random_loop map]. unfold bind.
    rewrite (date_fromordinal_run o s Ho), apod_handler_run.
    unfold handle at 1. rewrite Hnone. cbn [falsy].
    rewrite IH. now rewrite add_events_app.
Qed.

(** X14. When the upstream has no data for any day, the random sample
    runs through the whole shuffled range from the first APOD day to
    today, one fetch per day, and returns an empty list: fewer records
    than asked for is not an error. *)
Theorem random_sample_runs_dry (E : env) (count : Z) (c t : flag)
    (s : state) :
  valid_date (today E) = true ->
  (forall l, shuffle E l ≡ₚ l) ->
  0 < count <= 100 ->
  (forall dt b, parse_apod E dt b t = Returns None) ->
  let order :=
    shuffle E (seqZ (toordinal begin)
                    (toordinal (today E) + 1 - toordinal begin)) in
  _get_json_for_random_dates E count c t s
  = (Ok (JsonList []),
     add_events s
       (map (fun o => Fetch (DtDate (ord2ymd o)) (o =? toordinal (today E)) t)
            order))
  /\ order ≡ₚ seqZ (toordinal begin)
                   (toordinal (today E) + 1 - toordinal begin).
Proof.
  intros Hv Hperm Hcount Hnone. cbv zeta. split; [|apply Hperm].
  unfold _get_json_for_random_dates.
  replace ((100 <? count) || (count <=? 0)) with false
    by (symmetry; apply orb_false_iff; lia).
  cbv zeta. unfold bind. rewrite random_loop_dry; [reflexivity| |exact Hnone].
  pose proof (toordinal_bounds _ Hv) as Hb.
  apply Forall_forall. intros o Ho. rewrite Hperm in Ho.
  apply elem_of_seqZ in Ho. change (toordinal begin) with 728460 in Ho. lia.
Qed.

Section WithBuiltins.
Context (E : env) (py_int : string -> Z + string)
        (library_message : exn -> string).

(** X11. Through the endpoint, a request with only a [date] (and valid
    flags) whose date does not parse, or parses to a day before
    1995-06-16 or after today, is answered with 400, the message being the
    [ValueError]'s, the range message naming both bounds; nothing is
    fetched and no dictionary changes, whatever the cache holds. *)
Theorem bad_date_is_a_400 (args : list (string * string)) (raw : string)
    (s : state) :
  _validate args = true ->
  _validate_bools [flag_arg args "concept_tags"; flag_arg args "thumbs"]
  = true ->
  absent (args_get args "count") = true ->
  absent (args_get args "start_date") = true ->
  absent (args_get args "end_date") = true ->
  args_get args "date" = Some raw -> raw <> "" ->
  (strptime_Ymd raw = None ->
     apod E py_int library_message args s
     = (Abort "v1" (library_message (MalformedDate raw)) 400, s))
  /\ (forall d, strptime_Ymd raw = Some d ->
        date_lt d begin \/ date_lt (today E) d ->
        apod E py_int library_message args s
        = (Abort "v1"
             ("Date must be between Jun 16, 1995 and "
              +:+ strftime_bdY (today E) +:+ ".") 400, s)).
Proof.
  intros Hv Hb Hc Hs He Hd Hne.
  assert (forall e,
             _get_json_for_date E (Some raw) (flag_arg args "concept_tags")
               (flag_arg args "thumbs") s = (Raise e, s) ->
             apod E py_int library_message args s = (on_exception library_message e, s))
    as Hrun.
  { intros e Hraise. unfold apod, dispatch. rewrite Hv, Hb, Hc, Hs, He, Hd.
    cbn [negb andb]. now rewrite Hraise. }
  split.
  - intros Hp. rewrite (Hrun (MalformedDate raw)); [reflexivity|].
    destruct raw as [|a rest]; [congruence|].
    unfold _get_json_for_date, bind, resolve_input_date, parse_request_date.
    now rewrite Hp.
  - intros d Hp Hout.
    rewrite (Hrun (OutOfRangeDate (out_of_range_message E))); [reflexivity|].
    destruct (resolve_cases E (Some raw) (flag_arg args "concept_tags")
                (flag_arg args "thumbs") s) as
      [[Hf _]|(raw' & Heq & _ & [[Hn _]|(d' & Hp' & [[_ Hr]|(H1 & H2 & _)])])].
    + destruct raw; [congruence|contradiction].
    + simplify_eq.
    + unfold _get_json_for_date, bind. now rewrite Hr.
    + simplify_eq. unfold date_le, date_lt in *. destruct Hout; congruence.
Qed.

End WithBuiltins.

End OutcomeFacts.

(** ** Status codes and the secondary provider's payload *)

Module AnswerFacts.
Import Calendar Py Service Endpoint SingleFacts BatchFacts OutcomeFacts.

Lemma single_status E input c t s resp s' :
  _get_json_for_date E input c t s = (Ok resp, s') ->
  status resp = 200 \/ status resp = 404 \/ status resp = 500.
Proof.
  unfold _get_json_for_date. unfold bind at 1.
  destruct (resolve_input_date E input c t s) as [[[[u dt] key]|e] s0];
    [|discriminate].
  unfold serve_date, _apod_handler. run. intros H.
  destruct (RESULTS_DICT s0 !! key) as [cached|].
  - cbn [falsy] in H. destruct (bool_decide (cached = ∅));
      [simplify_eq; cbn; auto|].
    destruct (parse_record_date _ _) as [[d|e] s1] in H; simplify_eq.
    cbn. auto.
  - destruct (handle E dt c u t) as [|d0|r0] eqn:Hh; cbn [falsy] in H.
    + simplify_eq. cbn. auto.
    + destruct (bool_decide (d0 = ∅)); [simplify_eq; cbn; auto|].
      destruct (parse_record_date _ _) as [[d|e] s1] in H; simplify_eq.
      cbn. auto.
    + simplify_eq. rewrite (handle_response_is_500 _ _ _ _ _ _ Hh). cbn. auto.
Qed.

Lemma random_status E count c t s resp s' :
  _get_json_for_random_dates E count c t s = (Ok resp, s') -> status resp = 200.
Proof.
  unfold _get_json_for_random_dates.
  destruct ((100 <? count) || (count <=? 0)); [discriminate|].
  cbv zeta. unfold bind.
  destruct (random_loop _ _ _ _ _ _ _ _) as [[l|e] s1]; [|discriminate].
  intros H. unfold ret in H. now simplify_eq.
Qed.

Lemma range_status E start_date end_date c t s resp s' :
  _get_json_for_date_range E start_date end_date c t s = (Ok resp, s') ->
  status resp = 200.
Proof.
  destruct (RangeFacts.range_answer_shape E start_date end_date c t s)
    as [(l & s1 & Hl)|(e & s1 & He)]; rewrite ?Hl, ?He; intros H;
    now simplify_eq.
Qed.

(** X15. Whatever the request and the state, [apod] answers with one of
    four statuses: 200, 400, 404 or 500. *)
Theorem apod_status_codes (E : env) (py_int : string -> Z + string)
    (library_message : exn -> string) (args : list (string * string))
    (s : state) :
  status (fst (apod E py_int library_message args s)) ∈ [200; 400; 404; 500].
Proof.
  assert (forall x, x = 200 \/ x = 400 \/ x = 404 \/ x = 500 ->
                    x ∈ [200; 400; 404; 500]) as Hin.
  { intros x [-> | [-> | [-> | ->]]]; set_solver. }
  apply Hin. unfold apod.
  destruct (_validate args); [|cbn; auto].
  destruct (dispatch E py_int args s) as [[resp|e] s'] eqn:Hd; cbn [fst].
  - unfold dispatch in Hd.
    repeat match type of Hd with
           | (if ?b then _ else _) _ = _ => destruct b
           end.
    + unfold ret in Hd. simplify_eq. cbn. auto.
    + apply single_status in Hd. tauto.
    + destruct (py_int _); [|discriminate].
      apply random_status in Hd. auto.
    + apply range_status in Hd. auto.
    + unfold ret in Hd. simplify_eq. cbn. auto.
  - unfold on_exception. destruct (class_of e); cbn; auto.
Qed.

(** X12. For the payload the secondary provider sends, a list whose first
    element is a list of segments, each segment a list beginning with its
    translated fragment, [_translate_with_google] returns the fragments
    joined in order; what follows the fragment in a segment, and what
    follows the list of segments, is ignored. *)
Theorem google_fragments_are_joined (segments : list (string * list json))
    (others : list json) :
  joined_fragments
    (JArr (JArr (map (fun seg => JArr (JStr (fst seg) :: snd seg)) segments)
           :: others))
  = Ok (JStr (fold_right String.append "" (map fst segments))).
Proof.
  unfold joined_fragments, iterate.
  assert (exists fragments,
             first_fragments
               (map (fun seg => JArr (JStr (fst seg) :: snd seg)) segments)
             = Ok fragments
             /\ join_empty fragments
                = Ok (fold_right String.append "" (map fst segments)))
    as (fragments & -> & ->); [|reflexivity].
  induction segments as [|[frag extra] rest (fragments & Hf & Hj)].
  - exists []. split; reflexivity.
  - cbn [map first_fragments truthy is_nil negb subscript0 fst snd].
    rewrite Hf. destruct frag as [|a frag].
    + exists fragments. split; [reflexivity|]. cbn. exact Hj.
    + exists (JStr (String a frag) :: fragments). split; [reflexivity|].
      cbn [join_empty map fold_right fst]. now rewrite Hj.
Qed.

End AnswerFacts.

(** ** A flag given as a string *)

Module FlagFacts.
Import Calendar Py Service Endpoint SingleFacts BatchFacts EndpointFacts.







End FlagFacts.

(** ** The further theorems at work on the sample worlds *)

Module MoreRuns.
Import Calendar Py Service Endpoint Invariants Samples.
Import SingleFacts BatchFacts EndpointFacts KeyFacts RangeFacts OutcomeFacts
  FlagFacts.


Lemma unknown_field_rejected_witness :
  status (fst (apod plain int_of_digits no_message
                    [("date", "2020-01-01"); ("api_key", "DEMO")] initial))
  = 400.
Proof.
  rewrite (unknown_field_rejected plain int_of_digits no_message
             [("date", "2020-01-01"); ("api_key", "DEMO")] "api_key" "DEMO"
             initial); [reflexivity|right; left|].
  intros H. unfold ALLOWED_APOD_FIELDS in H.
  repeat (apply elem_of_cons in H as [H|H]; [discriminate|]).
  inversion H.
Defined.

Lemma dispatch_table_witness :
  dispatch plain int_of_digits [("count", "2")] initial
  = _get_json_for_random_dates plain 2 (FBool false) (FBool false) initial.
Proof.
  rewrite (dispatch_table plain int_of_digits [("count", "2")] initial
             eq_refl).
  lazy [args_get absent negb andb orb]. reflexivity.
Defined.

Lemma key_determines_date_witness :
  make_key (day 2020 1 1) (FBool true) (FBool false) = "2020y1m1dTrueFalse"
  /\ day 2020 1 1 = day 2020 1 1.
Proof.
  split; [reflexivity|].
  exact (proj1 (key_determines_date (day 2020 1 1) (day 2020 1 1)
                  (FBool true) (FBool false) (FBool true) (FBool false)
                  eq_refl eq_refl eq_refl eq_refl eq_refl eq_refl eq_refl)).
Defined.

Lemma cache_entries_well_formed_witness :
  cache_wf (snd (_get_json_for_date plain (Some "2020-01-01") no_flag no_flag
                                    initial)).
Proof.
  destruct (cache_entries_well_formed plain (Some "2020-01-01") no_flag
              no_flag initial) as [H0 H].
  exact (H H0).
Defined.

Lemma cached_entry_is_served_witness :
  let first := _get_json_for_date plain None no_flag no_flag initial in
  _get_json_for_date plain (Some "2026-01-02") no_flag no_flag (snd first)
  = (Ok (Json (the_record first)),
     add_events (snd first) [Store "2026y1m2dFalseFalse"]).
Proof.
  cbv zeta.
  set (first := _get_json_for_date plain None no_flag no_flag initial).
  destruct (cached_entry_is_served plain (Some "2026-01-02") no_flag no_flag
              (snd first) false (DtDate (day 2026 1 2)) "2026y1m2dFalseFalse"
              (the_record first)) as [H _];
    [|reflexivity|vm_compute; reflexivity|vm_compute; reflexivity|exact H].
  apply single_wf, cache_wf_initial.
Defined.

Lemma range_without_end_runs_to_today_witness :
  map (fun r => r !! "date")
      (records_of_run
         (_get_json_for_date_range behind "2025-12-31" None no_flag no_flag
                                   initial))
  = [Some (JStr "2025-12-31"); Some (JStr "2026-01-01")].
Proof.
  rewrite (range_without_end_runs_to_today behind "2025-12-31"
             (day 2025 12 31) None no_flag no_flag initial);
    [vm_compute; reflexivity|reflexivity|apply Runs.upstream_dated|
     reflexivity..].
Defined.

Lemma single_date_without_record_witness :
  _get_json_for_date nothing_upstream (Some "2020-01-01") no_flag no_flag
                     initial
  = (Ok (Abort "v1" "No data available for date: 2020-01-01" 404),
     add_events initial [Fetch (DtDate (day 2020 1 1)) false no_flag]).
Proof.
  destruct (single_date_without_record nothing_upstream (Some "2020-01-01")
              no_flag no_flag initial false (DtDate (day 2020 1 1))
              "2020y1m1dFalseFalse") as [H _]; [reflexivity..|].
  exact (H (or_introl eq_refl)).
Defined.

Lemma flags_printing_alike_share_entries_witness :
  let first :=
    _get_json_for_date plain (Some "2020-01-01") (FStr "False") no_flag
                       initial in
  is_Some (the_record first !! "concepts")
  /\ _get_json_for_date plain (Some "2020-01-01") (FBool false) no_flag
                        (snd first)
     = (Ok (Json (the_record first)),
        add_events (snd first) [Store "2020y1m1dFalseFalse"]).
Proof.
  cbv zeta.
  set (first := _get_json_for_date plain (Some "2020-01-01") (FStr "False")
                                   no_flag initial).
  split; [vm_compute; eauto|].
  apply (flags_printing_alike_share_entries plain "2020-01-01" (day 2020 1 1)
           (FStr "False") no_flag (FBool false) no_flag initial (snd first)
           (the_record first));
    [discriminate|reflexivity|reflexivity|reflexivity|
     vm_compute; reflexivity|vm_compute; reflexivity].
Defined.

Lemma random_sample_runs_dry_witness :
  fst (_get_json_for_random_dates nothing_upstream 5 no_flag no_flag initial)
  = Ok (JsonList []).
Proof.
  destruct (random_sample_runs_dry nothing_upstream 5 no_flag no_flag initial)
    as [H _];
    [reflexivity|intros l; symmetry; apply Permutation_rev|lia|
     intros; reflexivity|].
  now rewrite H.
Defined.

Lemma bad_date_is_a_400_witness :
  apod plain int_of_digits no_message [("date", "2027-01-01")] initial
  = (Abort "v1" "Date must be between Jun 16, 1995 and Jan 02, 2026." 400,
     initial).
Proof.
  destruct (bad_date_is_a_400 plain int_of_digits no_message
              [("date", "2027-01-01")] "2027-01-01" initial) as [_ H];
    [reflexivity..|discriminate|].
  exact (H (day 2027 1 1) eq_refl (or_intror eq_refl)).
Defined.

End MoreRuns.
